(** * YarnClusterManager: the cluster lifecycle controller of dask-gateway

    A shallow embedding of [dask_gateway/yarn_cluster.py].  The Python
    methods become functions over an explicit program state (the
    controller's [app_id], the class-level client cache, the file system,
    the event loop's clock and a trace of resource-manager calls); the
    collaborators that live outside the file (the skein client, the
    operating system, the base class) are an environment of oracles.

    Modelling choices: one coroutine runs at a time, and the clock counts
    its suspensions; the file system holds regular files only, and
    [os.unlink] of an existing file succeeds; opening and writing a file,
    and every call on the resource manager, may raise; constructing a
    client does not.  The polling loops of [start] need not terminate,
    so they take fuel, and [None] means the fuel ran out. *)

From Stdlib Require Import ZArith Lia Ascii DecimalString DecimalZ DecimalPos.
From stdpp Require Import gmap strings list fin_maps.

Open Scope string_scope.
Open Scope list_scope.

(** ** Python values, exceptions and the effect monad *)

(** The dynamic values that reach [str + x] and [' '.join(x)]. *)
Inductive pyval :=
| PStr (s : string)
| PList (l : list string).

Inductive exn :=
| TypeError (msg : string)
| FileExistsError (path : string)
| FileNotFoundError (path : string)
| PermissionError (path : string)
| OSError (path : string)
| AttributeError (name : string)
| ClientError (msg : string)
| Exception (msg : string).

Inductive outcome (A : Type) :=
| Ret (a : A)
| Raise (e : exn).
Arguments Ret {A} a.
Arguments Raise {A} e.

(** ** The skein data model (the part the controller builds) *)

Inductive Security := Credentials (seed : nat).

Inductive resource :=
| ResPath (p : string)
| ResFile (fields : list (string * string)).

(** A value of the [localize_files] trait: a dict, or anything else. *)
Inductive localize_value :=
| LDict (d : list (string * string))
| LOther (r : resource).

Record Resources := { memory : string; vcores : Z }.

Record Master := {
  m_security : Security;
  m_resources : Resources;
  m_files : gmap string resource;
  m_env : gmap string string;
  m_script : string
}.

Record Service := {
  s_instances : Z;
  s_resources : Resources;
  s_max_restarts : Z;
  s_files : gmap string resource;
  s_env : gmap string string;
  s_script : string
}.

Record ApplicationSpec := {
  spec_name : string;
  spec_queue : string;
  spec_user : string;
  spec_master : Master;
  spec_services : gmap string Service
}.

(** Modelled from the spec: the states of an application report, an enum
    of the resource-manager client, which is not part of this file. *)
Inductive ApplicationState :=
| SUBMITTED | ACCEPTED | RUNNING | FAILED | KILLED | FINISHED.

Definition str_of_state (s : ApplicationState) : string :=
  match s with
  | SUBMITTED => "SUBMITTED"
  | ACCEPTED => "ACCEPTED"
  | RUNNING => "RUNNING"
  | FAILED => "FAILED"
  | KILLED => "KILLED"
  | FINISHED => "FINISHED"
  end.

(** Modelled from the spec: the client's enum compares equal to a string
    exactly when the string is the state's name. *)
Definition state_eq_str (s : ApplicationState) (name : string) : bool :=
  String.eqb (str_of_state s) name.

Record Report := { state : ApplicationState }.

Record Client := {
  client_object : nat;
  client_principal : option string;
  client_keytab : option string;
  client_security : Security
}.

(** ** Configuration, program state, environment *)

(** The traits of the class and the values read from the base class.
    [get_env], [get_worker_args] and [get_scheduler_args] hold what the
    methods of those names return; the base class is not part of this
    file, so the argument getters may return any str or list. *)
Record Config := {
  principal : option string;
  keytab : option string;
  queue : string;
  localize_files : gmap string localize_value;
  worker_memory : Z;
  worker_cores : Z;
  worker_setup : string;
  worker_cmd : string;
  scheduler_memory : Z;
  scheduler_cores : Z;
  scheduler_setup : string;
  scheduler_cmd : string;
  temp_dir : string;
  cluster_id : string;
  tls_cert : list Byte.byte;
  tls_key : list Byte.byte;
  user_name : string;
  get_env : gmap string string;
  get_worker_args : pyval;
  get_scheduler_args : pyval
}.

Record fileobj := { f_mode : Z; f_data : list Byte.byte }.

Inductive event :=
| EvNewClient (key : option string * option string) (obj : nat)
| EvSubmit (spec : ApplicationSpec)
| EvReport (app : string)
| EvKill (app : string)
| EvSleep.

Record State := {
  app_id : string;
  clients : gmap (option string * option string) Client;
  fs : gmap string fileobj;
  next_object : nat;
  draws : nat;
  clock : nat;
  trace : list event
}.

(** What the controller cannot decide: the operating system's refusals,
    the credential generator, the resource manager's answers at each
    moment, and the addresses the scheduler reports through the base
    class. *)
Record Env := {
  umask : Z;
  open_refused : string -> bool;
  write_fails : string -> bool;
  entropy : nat -> nat;
  rm_submit : nat -> ApplicationSpec -> outcome string;
  rm_report : nat -> string -> outcome Report;
  rm_kill : nat -> string -> outcome unit;
  scheduler_address_at : nat -> option string;
  dashboard_address_at : nat -> string
}.

Definition M (A : Type) : Type := State -> outcome A * State.

Definition ret {A} (a : A) : M A := fun st => (Ret a, st).
Definition raise {A} (e : exn) : M A := fun st => (Raise e, st).
Definition bind {A B} (c : M A) (k : A -> M B) : M B :=
  fun st =>
    match c st with
    | (Ret a, st1) => k a st1
    | (Raise e, st1) => (Raise e, st1)
    end.
Definition lift {A} (o : outcome A) : M A := fun st => (o, st).

Notation "'do' x <- c ; k" := (bind c (fun x => k))
  (at level 10, x name, c at level 100, k at level 200).
Notation "'run' c ; k" := (bind c (fun _ => k))
  (at level 10, c at level 100, k at level 200).

(** [try: c finally: fin] *)
Definition try_finally {A} (c : M A) (fin : M unit) : M A :=
  fun st =>
    match c st with
    | (r, st1) =>
      match fin st1 with
      | (Ret _, st2) => (r, st2)
      | (Raise e, st2) => (Raise e, st2)
      end
    end.

Definition set_app_id (a : string) (st : State) : State :=
  {| app_id := a; clients := clients st; fs := fs st;
     next_object := next_object st; draws := draws st;
     clock := clock st; trace := trace st |}.

Definition set_fs (f : gmap string fileobj) (st : State) : State :=
  {| app_id := app_id st; clients := clients st; fs := f;
     next_object := next_object st; draws := draws st;
     clock := clock st; trace := trace st |}.

Definition set_draws (n : nat) (st : State) : State :=
  {| app_id := app_id st; clients := clients st; fs := fs st;
     next_object := next_object st; draws := n;
     clock := clock st; trace := trace st |}.

(** One [await] that reaches the event loop: time passes, and the call
    made (if any) is recorded. *)
Definition suspend (evs : list event) (st : State) : State :=
  {| app_id := app_id st; clients := clients st; fs := fs st;
     next_object := next_object st; draws := draws st;
     clock := S (clock st); trace := trace st ++ evs |}.

Definition add_client (key : option string * option string) (c : Client)
    (st : State) : State :=
  {| app_id := app_id st; clients := <[key := c]> (clients st); fs := fs st;
     next_object := S (next_object st); draws := draws st;
     clock := clock st; trace := trace st |}.

(** ** Python string operations *)

Fixpoint chars (s : string) : list string :=
  match s with
  | EmptyString => []
  | String c rest => String c EmptyString :: chars rest
  end.

(** [a + b] on a str left operand. *)
Definition py_add (a b : pyval) : outcome pyval :=
  match a, b with
  | PStr x, PStr y => Ret (PStr (x +:+ y))
  | PList x, PList y => Ret (PList (x ++ y))
  | PStr _, PList _ => Raise (TypeError "can only concatenate str (not list) to str")
  | PList _, PStr _ => Raise (TypeError "can only concatenate list (not str) to list")
  end.

(** [sep.join(v)]: a str is iterated character by character. *)
Definition py_join (sep : string) (v : pyval) : string :=
  match v with
  | PStr s => String.concat sep (chars s)
  | PList l => String.concat sep l
  end.

(** ['%d' % n] *)
Definition format_d (n : Z) : string := NilZero.string_of_int (Z.to_int n).

(** [bool(s)] for a str. *)
Definition truthy (s : string) : bool := negb (String.eqb s "").

Definition endswith_sep (s : string) : bool :=
  match String.get (String.length s - 1) s with
  | Some c => Ascii.eqb c "/"%char
  | None => false
  end.

(** [os.path.join(a, b)] of posixpath. *)
Definition os_path_join (a b : string) : string :=
  if String.prefix "/" b then b
  else if negb (truthy a) || endswith_sep a then a +:+ b
  else a +:+ "/" +:+ b.

(** ** The operating system calls of [temp_write_credentials] *)

Definition O_WRONLY : Z := 1.
Definition O_CREAT : Z := 64.
Definition O_EXCL : Z := 128.

Definition mode_0o600 : Z := 6 * 64.

Definition has_flag (flags f : Z) : bool := negb (Z.land flags f =? 0)%Z.

(** [os.open(path, flags, mode)]: with [O_CREAT | O_EXCL] an existing
    path is an error; a created file gets [mode & ~umask]. *)
Definition os_open (env : Env) (path : string) (flags mode : Z) : M unit :=
  fun st =>
    match fs st !! path with
    | Some _ =>
      if has_flag flags O_CREAT && has_flag flags O_EXCL
      then (Raise (FileExistsError path), st)
      else (Ret tt, st)
    | None =>
      if has_flag flags O_CREAT then
        if open_refused env path then (Raise (PermissionError path), st)
        else (Ret tt,
              set_fs (<[path := {| f_mode := Z.land mode (Z.lnot (umask env));
                                   f_data := [] |}]> (fs st)) st)
      else (Raise (FileNotFoundError path), st)
    end.

(** [fil.write(data)] on a descriptor opened write-only at offset 0. *)
Definition file_write (env : Env) (path : string) (data : list Byte.byte) : M unit :=
  fun st =>
    if write_fails env path then (Raise (OSError path), st)
    else (Ret tt,
          set_fs (alter (fun f => {| f_mode := f_mode f;
                                     f_data := data ++ drop (length data) (f_data f) |})
                        path (fs st)) st).

Definition os_path_exists (path : string) (st : State) : bool :=
  bool_decide (is_Some (fs st !! path)).

Definition os_unlink (path : string) : M unit :=
  fun st =>
    match fs st !! path with
    | Some _ => (Ret tt, set_fs (delete path (fs st)) st)
    | None => (Raise (FileNotFoundError path), st)
    end.

(** ** [_get_client] *)

Definition new_credentials (env : Env) : M Security :=
  fun st => (Ret (Credentials (entropy env (draws st))), set_draws (S (draws st)) st).

Definition _get_client (env : Env) (cfg : Config) : M Client :=
  fun st =>
    let key := (principal cfg, keytab cfg) in
    match clients st !! key with
    | Some client => (Ret client, st)
    | None =>
      match new_credentials env st with
      | (Ret sec, st1) =>
        let client := {| client_object := next_object st1;
                         client_principal := principal cfg;
                         client_keytab := keytab cfg;
                         client_security := sec |} in
        (Ret client,
         add_client key client
           (suspend [EvNewClient key (next_object st1)] st1))
      | (Raise e, st1) => (Raise e, st1)
      end
    end.

(** ** [temp_write_credentials] *)

Fixpoint write_each (env : Env) (flags : Z)
    (items : list (string * list Byte.byte)) : M unit :=
  match items with
  | [] => ret tt
  | (path, data) :: rest =>
    run os_open env path flags mode_0o600;
    run file_write env path data;
    write_each env flags rest
  end.

Fixpoint unlink_each (paths : list string) : M unit :=
  match paths with
  | [] => ret tt
  | path :: rest =>
    fun st =>
      if os_path_exists path st
      then (run os_unlink path; unlink_each rest) st
      else unlink_each rest st
  end.

Definition cert_path (cfg : Config) : string :=
  os_path_join (temp_dir cfg) (cluster_id cfg) +:+ ".crt".

Definition key_path (cfg : Config) : string :=
  os_path_join (temp_dir cfg) (cluster_id cfg) +:+ ".pem".

Definition credential_flags : Z := Z.lor (Z.lor O_WRONLY O_CREAT) O_EXCL.

(** The statements of the [try] block that precede the [yield]. *)
Definition write_credentials (env : Env) (cfg : Config) : M unit :=
  write_each env credential_flags
    [(cert_path cfg, tls_cert cfg); (key_path cfg, tls_key cfg)].

(** The context manager, applied to the body of its [with] block. *)
Definition temp_write_credentials {A} (env : Env) (cfg : Config)
    (body : string -> string -> M A) : M A :=
  try_finally
    (run write_credentials env cfg;
     body (cert_path cfg) (key_path cfg))
    (unlink_each [cert_path cfg; key_path cfg]).

(** ** The launch commands and [_build_specification] *)

Definition worker_command (cfg : Config) : outcome string :=
  match py_add (PStr (worker_cmd cfg)) (get_worker_args cfg) with
  | Ret v => Ret (py_join " " v)
  | Raise e => Raise e
  end.

Definition scheduler_command (cfg : Config) : outcome string :=
  match py_add (PStr (scheduler_cmd cfg)) (get_scheduler_args cfg) with
  | Ret v => Ret (py_join " " v)
  | Raise e => Raise e
  end.

Definition from_dict (d : list (string * string)) : resource := ResFile d.

Definition localized (v : localize_value) : resource :=
  match v with
  | LDict d => from_dict d
  | LOther r => r
  end.

Definition newline : string := String (ascii_of_nat 10) EmptyString.

Definition _build_specification (env : Env) (cfg : Config)
    (cert_path key_path : string) : M ApplicationSpec :=
  let files := localized <$> localize_files cfg in
  let files := <["dask.crt" := ResPath cert_path]> files in
  let files := <["dask.pem" := ResPath key_path]> files in
  do scheduler_cmdline <- lift (scheduler_command cfg);
  let scheduler_script := String.concat newline [scheduler_setup cfg; scheduler_cmdline] in
  do worker_cmdline <- lift (worker_command cfg);
  let worker_script := String.concat newline [worker_setup cfg; worker_cmdline] in
  do security <- new_credentials env;
  let master :=
    {| m_security := security;
       m_resources := {| memory := format_d (scheduler_memory cfg) +:+ " b";
                         vcores := scheduler_cores cfg |};
       m_files := files;
       m_env := get_env cfg;
       m_script := scheduler_script |} in
  let services : gmap string Service :=
    {[ "dask.worker" :=
       {| s_instances := 0;
          s_resources := {| memory := format_d (worker_memory cfg) +:+ " b";
                            vcores := worker_cores cfg |};
          s_max_restarts := -1;
          s_files := files;
          s_env := get_env cfg;
          s_script := worker_script |} ]} in
  ret {| spec_name := "dask-gateway";
         spec_queue := queue cfg;
         spec_user := user_name cfg;
         spec_master := master;
         spec_services := services |}.

(** ** Persisted state *)

Definition load_state (saved : gmap string string) (st : State) : State :=
  set_app_id (default "" (saved !! "app_id")) st.

Definition get_state (base : gmap string string) (st : State) : gmap string string :=
  if truthy (app_id st) then <["app_id" := app_id st]> base else base.

(** ** Calls on the resource-manager client

    Each runs in the executor and is awaited: one suspension, one event. *)

Definition submit (env : Env) (spec : ApplicationSpec) : M string :=
  fun st => (rm_submit env (clock st) spec, suspend [EvSubmit spec] st).

Definition application_report (env : Env) (app : string) : M Report :=
  fun st => (rm_report env (clock st) app, suspend [EvReport app] st).

Definition kill_application (env : Env) (app : string) : M unit :=
  fun st => (rm_kill env (clock st) app, suspend [EvKill app] st).

(** [await gen.sleep(0.5)] *)
Definition sleep : M unit := fun st => (Ret tt, suspend [EvSleep] st).

(** A read of [self.app_id]. *)
Definition self_app_id : M string := fun st => (Ret (app_id st), st).

(** ** [start] *)

Definition terminal_states : list string := ["FAILED"; "KILLED"; "FINISHED"].

Definition is_terminal (name : string) : bool :=
  bool_decide (name ∈ terminal_states).

Definition failure_message (app : string) : string :=
  "Application " +:+ app +:+
  " failed to start, check application logs for more information".

(** [getattr(self, 'scheduler_address', '')] *)
Definition getattr_scheduler_address (env : Env) (st : State) : string :=
  default "" (scheduler_address_at env (clock st)).

(** The body of the [with] block. *)
Definition with_block (env : Env) (cfg : Config)
    (cert_path key_path : string) : M unit :=
  do spec <- _build_specification env cfg cert_path key_path;
  do app <- submit env spec;
  fun st => (Ret tt, set_app_id app st).

(** Client acquisition and the [with] statement. *)
Definition start_submission (env : Env) (cfg : Config) : M unit :=
  do client <- _get_client env cfg;
  temp_write_credentials env cfg (with_block env cfg).

(** The first loop; [fuel] bounds the number of polls. *)
Fixpoint wait_for_running (env : Env) (fuel : nat) (st : State)
    : option (outcome unit * State) :=
  match fuel with
  | O => None
  | S fuel' =>
    match (do app <- self_app_id; application_report env app) st with
    | (Raise e, st1) => Some (Raise e, st1)
    | (Ret report, st1) =>
      let name := str_of_state (state report) in
      if is_terminal name
      then Some (Raise (Exception (failure_message (app_id st1))), st1)
      else if String.eqb name "RUNNING" then Some (Ret tt, st1)
      else match sleep st1 with
           | (_, st2) => wait_for_running env fuel' st2
           end
    end
  end.

(** The second loop; [fuel] bounds the number of executions of its body. *)
Fixpoint wait_for_address (env : Env) (fuel : nat) (st : State)
    : option (outcome unit * State) :=
  if negb (truthy (getattr_scheduler_address env st)) then
    match fuel with
    | O => None
    | S fuel' =>
      match (run sleep;
             do app <- self_app_id;
             application_report env app) st with
      | (Raise e, st1) => Some (Raise e, st1)
      | (Ret report, st1) =>
        if is_terminal (str_of_state (state report))
        then Some (Raise (Exception (failure_message (app_id st1))), st1)
        else wait_for_address env fuel' st1
      end
    end
  else Some (Ret tt, st).

(** [return self.scheduler_address, self.dashboard_address] *)
Definition return_addresses (env : Env) : M (string * string) :=
  fun st =>
    match scheduler_address_at env (clock st) with
    | Some a => (Ret (a, dashboard_address_at env (clock st)), st)
    | None => (Raise (AttributeError "scheduler_address"), st)
    end.

Definition start (env : Env) (cfg : Config) (fuel : nat) (st : State)
    : option (outcome (string * string) * State) :=
  match start_submission env cfg st with
  | (Raise e, st1) => Some (Raise e, st1)
  | (Ret _, st1) =>
    match wait_for_running env fuel st1 with
    | None => None
    | Some (Raise e, st2) => Some (Raise e, st2)
    | Some (Ret _, st2) =>
      match wait_for_address env fuel st2 with
      | None => None
      | Some (Raise e, st3) => Some (Raise e, st3)
      | Some (Ret _, st3) => Some (return_addresses env st3)
      end
    end
  end.

(** ** [is_running] and [stop] *)

Definition is_running (env : Env) (cfg : Config) : M bool :=
  fun st =>
    if String.eqb (app_id st) "" then (Ret false, st)
    else
      (do client <- _get_client env cfg;
       do app <- self_app_id;
       do report <- application_report env app;
       ret (state_eq_str (state report) "RUNNING")) st.

Definition stop (env : Env) (cfg : Config) : M unit :=
  fun st =>
    if String.eqb (app_id st) "" then (Ret tt, st)
    else
      (do client <- _get_client env cfg;
       do app <- self_app_id;
       kill_application env app) st.

(** * Specification vocabulary *)

Definition same_controller (st st' : State) : Prop :=
  app_id st' = app_id st.

Definition same_but_fs (st st' : State) : Prop :=
  app_id st' = app_id st /\ clients st' = clients st /\
  next_object st' = next_object st /\ draws st' = draws st /\
  clock st' = clock st /\ trace st' = trace st.

Definition creds_absent (cfg : Config) (st : State) : Prop :=
  fs st !! cert_path cfg = None /\ fs st !! key_path cfg = None.

(** The events one acquisition may add: none on a hit, the construction
    on a miss. *)
Definition construction (cfg : Config) (st : State) : list event :=
  match clients st !! (principal cfg, keytab cfg) with
  | Some _ => []
  | None => [EvNewClient (principal cfg, keytab cfg) (next_object st)]
  end.

Definition assemble (cfg : Config) (cert_path key_path : string)
    (security : Security) (scheduler_cmdline worker_cmdline : string)
    : ApplicationSpec :=
  let files :=
    <["dask.pem" := ResPath key_path]>
      (<["dask.crt" := ResPath cert_path]> (localized <$> localize_files cfg)) in
  {| spec_name := "dask-gateway";
     spec_queue := queue cfg;
     spec_user := user_name cfg;
     spec_master :=
       {| m_security := security;
          m_resources := {| memory := format_d (scheduler_memory cfg) +:+ " b";
                            vcores := scheduler_cores cfg |};
          m_files := files;
          m_env := get_env cfg;
          m_script := scheduler_setup cfg +:+ newline +:+ scheduler_cmdline |};
     spec_services :=
       {[ "dask.worker" :=
          {| s_instances := 0;
             s_resources := {| memory := format_d (worker_memory cfg) +:+ " b";
                               vcores := worker_cores cfg |};
             s_max_restarts := -1;
             s_files := files;
             s_env := get_env cfg;
             s_script := worker_setup cfg +:+ newline +:+ worker_cmdline |} ]} |}.

(** What a run of the submission phase did: [Some spec] when the submit
    call was made with [spec], [None] when the run failed before it. *)
Definition submission_trace (cfg : Config) (st : State)
    (sent : option ApplicationSpec) : list event :=
  trace st ++ construction cfg st ++
  match sent with Some spec => [EvSubmit spec] | None => [] end.

(** What polling leaves alone: files, the recorded id, the client pool. *)
Definition poll_frame (st st' : State) : Prop :=
  fs st' = fs st /\ app_id st' = app_id st /\ clients st' = clients st /\
  clock st <= clock st'.

(** How a polling loop can fail: a terminal state was reported, or the
    report call itself raised. *)
Definition poll_failure (env : Env) (app : string) (e : exn) : Prop :=
  (e = Exception (failure_message app) /\
   exists t rep, rm_report env t app = Ret rep /\
                 is_terminal (str_of_state (state rep)) = true) \/
  (exists t, rm_report env t app = Raise e).

(** [str(e)], as far as the properties below read it. *)
Definition exn_message (e : exn) : string :=
  match e with
  | TypeError m => m
  | FileExistsError p => p
  | FileNotFoundError p => p
  | PermissionError p => p
  | OSError p => p
  | AttributeError n => n
  | ClientError m => m
  | Exception m => m
  end.

(** [sub in s] *)
Fixpoint contains (sub s : string) : bool :=
  String.prefix sub s ||
  match s with
  | EmptyString => false
  | String _ rest => contains sub rest
  end.

(** The error tells the caller which application it is about. *)
Definition names_application (e : exn) (app : string) : Prop :=
  contains app (exn_message e) = true.

(** A spec with the master's security credential blanked out. *)
Definition erase_security (spec : ApplicationSpec) : ApplicationSpec :=
  {| spec_name := spec_name spec;
     spec_queue := spec_queue spec;
     spec_user := spec_user spec;
     spec_master :=
       {| m_security := Credentials 0;
          m_resources := m_resources (spec_master spec);
          m_files := m_files (spec_master spec);
          m_env := m_env (spec_master spec);
          m_script := m_script (spec_master spec) |};
     spec_services := spec_services spec |}.

(** The launch script as the documentation describes it: the setup
    script, a newline, the command name and its arguments separated by
    spaces. *)
Definition documented_script (setup cmd : string) (args : list string) : string :=
  setup +:+ newline +:+ String.concat " " (cmd :: args).

(** The client pool hands out each object once. *)
Definition pool_ok (st : State) : Prop :=
  (forall k c, clients st !! k = Some c -> client_object c < next_object st) /\
  (forall k1 k2 c1 c2,
      clients st !! k1 = Some c1 -> clients st !! k2 = Some c2 ->
      client_object c1 = client_object c2 -> k1 = k2).

Definition is_report (ev : event) : bool :=
  match ev with EvReport _ => true | _ => false end.

Definition is_kill (ev : event) : bool :=
  match ev with EvKill _ => true | _ => false end.

(** Calls on the resource manager, as opposed to client construction
    and sleeps. *)
Definition is_rm_call (ev : event) : bool :=
  match ev with
  | EvSubmit _ | EvReport _ | EvKill _ => true
  | EvNewClient _ _ | EvSleep => false
  end.

Definition count_events (p : event -> bool) (tr : list event) : nat :=
  length (List.filter p tr).

(** ** Concrete runs *)

Module Scenario.

Definition fresh : State :=
  {| app_id := ""; clients := ∅; fs := ∅; next_object := 0; draws := 0;
     clock := 0; trace := [] |}.

(** A configuration whose argument getters return lists. *)
Definition cfg_lists : Config :=
  {| principal := None; keytab := None; queue := "default";
     localize_files := ∅;
     worker_memory := 2147483648; worker_cores := 1;
     worker_setup := ""; worker_cmd := "dask-gateway-worker";
     scheduler_memory := 2147483648; scheduler_cores := 1;
     scheduler_setup := "source env/bin/activate";
     scheduler_cmd := "dask-gateway-scheduler";
     temp_dir := "/tmp"; cluster_id := "c1";
     tls_cert := [Byte.x41]; tls_key := [Byte.x42];
     user_name := "alice"; get_env := ∅;
     get_worker_args := PList ["--nthreads"; "1"];
     get_scheduler_args := PList ["--port"; "0"] |}.

(** The same configuration with getters that return strings, the only
    values with which the launch commands evaluate. *)
Definition cfg : Config :=
  {| principal := None; keytab := None; queue := "default";
     localize_files := ∅;
     worker_memory := 2147483648; worker_cores := 1;
     worker_setup := ""; worker_cmd := "dask-gateway-worker";
     scheduler_memory := 2147483648; scheduler_cores := 1;
     scheduler_setup := "source env/bin/activate";
     scheduler_cmd := "dask-gateway-scheduler";
     temp_dir := "/tmp"; cluster_id := "c1";
     tls_cert := [Byte.x41]; tls_key := [Byte.x42];
     user_name := "alice"; get_env := ∅;
     get_worker_args := PStr "";
     get_scheduler_args := PStr "" |}.

Definition kerberos_cfg : Config :=
  {| principal := Some "dask"; keytab := Some "/etc/dask.keytab";
     queue := "default"; localize_files := ∅;
     worker_memory := 2147483648; worker_cores := 1;
     worker_setup := ""; worker_cmd := "dask-gateway-worker";
     scheduler_memory := 2147483648; scheduler_cores := 1;
     scheduler_setup := ""; scheduler_cmd := "dask-gateway-scheduler";
     temp_dir := "/tmp"; cluster_id := "c2";
     tls_cert := []; tls_key := [];
     user_name := "bob"; get_env := ∅;
     get_worker_args := PStr ""; get_scheduler_args := PStr "" |}.

Definition world (submitted : outcome string)
    (reports : nat -> outcome Report)
    (address : nat -> option string) : Env :=
  {| umask := 18;
     open_refused := fun _ => false;
     write_fails := fun _ => false;
     entropy := fun n => n;
     rm_submit := fun _ _ => submitted;
     rm_report := fun t _ => reports t;
     rm_kill := fun _ _ => Ret tt;
     scheduler_address_at := address;
     dashboard_address_at := fun _ => "http://10.0.0.1:8787" |}.

Definition app : string := "application_1_0001".
Definition address : string := "tls://10.0.0.1:8786".

(** Reports ACCEPTED, ACCEPTED, RUNNING; the address arrives during the
    second wait of the address loop. *)
Definition env_A : Env :=
  world (Ret app)
    (fun t => Ret {| state := if Nat.ltb t 6 then ACCEPTED else RUNNING |})
    (fun t => if Nat.ltb t 11 then None else Some address).

(** Reports ACCEPTED, FAILED. *)
Definition env_B : Env :=
  world (Ret app)
    (fun t => Ret {| state := if Nat.ltb t 4 then ACCEPTED else FAILED |})
    (fun _ => None).

(** The resource manager rejects the submission. *)
Definition env_C : Env :=
  world (Raise (ClientError "queue is over its quota"))
    (fun _ => Ret {| state := ACCEPTED |})
    (fun _ => None).

(** The first report call breaks. *)
Definition env_blip : Env :=
  world (Ret app)
    (fun _ => Raise (ClientError "connection lost"))
    (fun _ => None).

(** RUNNING at the first poll, with the address already known. *)
Definition env_ready : Env :=
  world (Ret app)
    (fun _ => Ret {| state := RUNNING |})
    (fun _ => Some address).

(** A controller that has already submitted. *)
Definition submitted : State :=
  {| app_id := app; clients := ∅; fs := ∅; next_object := 0; draws := 0;
     clock := 0; trace := [] |}.

(** A stale certificate file at the target path. *)
Definition stale : State :=
  {| app_id := "";  clients := ∅;
     fs := {[ "/tmp/c1.crt" := {| f_mode := 420; f_data := [] |} ]};
     next_object := 0; draws := 0; clock := 0; trace := [] |}.

Definition state_after {A} (result : option (outcome A * State)) : State :=
  match result with
  | Some (_, st) => st
  | None => fresh
  end.

End Scenario.

(** A credential file as [temp_write_credentials] leaves it for the body
    of the scope. *)
Definition created (env : Env) (data : list Byte.byte) : fileobj :=
  {| f_mode := Z.land mode_0o600 (Z.lnot (umask env)); f_data := data |}.

(** The permission bits of group and others, [0o077]. *)
Definition group_other_bits : Z := 7 * 8 + 7.


(** ** Vocabulary of the further properties *)

(** Every cached client was built for the identity it is cached under. *)
Definition pool_keys_ok (st : State) : Prop :=
  forall k c, clients st !! k = Some c ->
              (client_principal c, client_keytab c) = k.

(** The pool after an operation of the controller configured by [cfg]:
    still well formed, nothing evicted or replaced, and no other
    identity's entry touched. *)
Definition pool_grows (cfg : Config) (st st' : State) : Prop :=
  pool_ok st' /\
  (forall k c, clients st !! k = Some c -> clients st' !! k = Some c) /\
  (forall k, k <> (principal cfg, keytab cfg) ->
             clients st' !! k = clients st !! k).

(** The events of polling: report queries for one application, and
    sleeps. *)
Definition poll_event (app : string) (ev : event) : Prop :=
  ev = EvReport app \/ ev = EvSleep.

(** What polling leaves alone, and what it adds. *)
Definition quiet (st st' : State) : Prop :=
  fs st' = fs st /\ app_id st' = app_id st /\ clients st' = clients st /\
  next_object st' = next_object st /\ draws st' = draws st /\
  exists evs, trace st' = trace st ++ evs /\
              Forall (poll_event (app_id st)) evs /\
              clock st' = clock st + length evs.

(** A state in which the application is neither running nor over. *)
Definition waiting (s : ApplicationState) : bool :=
  match s with
  | SUBMITTED | ACCEPTED => true
  | RUNNING | FAILED | KILLED | FINISHED => false
  end.

(** [n] rounds of the first loop: a poll, then a sleep. *)
Fixpoint poll_rounds (app : string) (n : nat) : list event :=
  match n with
  | O => []
  | S n' => EvReport app :: EvSleep :: poll_rounds app n'
  end.

(** [n] rounds of the second loop: a sleep, then a poll. *)
Fixpoint wait_rounds (app : string) (n : nat) : list event :=
  match n with
  | O => []
  | S n' => EvSleep :: EvReport app :: wait_rounds app n'
  end.

(** How the first loop ends on the first report that is not a waiting
    state. *)
Definition first_loop_end (app : string) (final : outcome Report) : outcome unit :=
  match final with
  | Raise e => Raise e
  | Ret report =>
    if is_terminal (str_of_state (state report))
    then Raise (Exception (failure_message app))
    else Ret tt
  end.

Definition is_submit (ev : event) : bool :=
  match ev with EvSubmit _ => true | _ => false end.

(** The scheduler address held at time [t] is still empty. *)
Definition address_is_empty (env : Env) (t : nat) : Prop :=
  default "" (scheduler_address_at env t) = "".

(** No slash in the string: the name of a single directory entry. *)
Fixpoint slash_free (s : string) : bool :=
  match s with
  | EmptyString => true
  | String c rest => negb (Ascii.eqb c "/"%char) && slash_free rest
  end.

(** The directory part [os.path.join] puts in front of a relative name. *)
Definition join_front (a : string) : string :=
  if negb (truthy a) || endswith_sep a then a else a +:+ "/".





(** More concrete runs. *)
Module Cases.

(** RUNNING at the first poll, no address yet, FAILED at the next poll. *)
Definition env_dies : Env :=
  Scenario.world (Ret Scenario.app)
    (fun t => Ret {| state := if Nat.ltb t 3 then RUNNING else FAILED |})
    (fun _ => None).

(** The kill request is refused. *)
Definition env_no_kill : Env :=
  {| umask := 18;
     open_refused := fun _ => false;
     write_fails := fun _ => false;
     entropy := fun n => n;
     rm_submit := fun _ _ => Ret Scenario.app;
     rm_report := fun _ _ => Ret {| state := RUNNING |};
     rm_kill := fun _ _ => Raise (ClientError "connection lost");
     scheduler_address_at := fun _ => None;
     dashboard_address_at := fun _ => "" |}.

(** Another file in the temporary directory. *)
Definition busy : State :=
  {| app_id := ""; clients := ∅;
     fs := {[ "/tmp/other" := {| f_mode := 420; f_data := [Byte.x43] |} ]};
     next_object := 0; draws := 0; clock := 0; trace := [] |}.

(** A client of another identity, already cached, and an id recorded. *)
Definition kerberos_client : Client :=
  {| client_object := 0; client_principal := Some "dask";
     client_keytab := Some "/etc/dask.keytab";
     client_security := Credentials 0 |}.

Definition shared : State :=
  {| app_id := Scenario.app;
     clients := {[ (Some "dask", Some "/etc/dask.keytab") := kerberos_client ]};
     fs := ∅; next_object := 1; draws := 1; clock := 0; trace := [] |}.

End Cases.

(** * Properties *)

(** ** Frames: what an operation leaves alone *)

Lemma same_but_fs_refl st : same_but_fs st st.
Proof. repeat split. Qed.

Lemma same_but_fs_trans a b c :
  same_but_fs a b -> same_but_fs b c -> same_but_fs a c.
Proof.
  unfold same_but_fs. intros (?&?&?&?&?&?) (?&?&?&?&?&?).
  repeat split; congruence.
Qed.

Lemma same_but_fs_set_fs f st : same_but_fs st (set_fs f st).
Proof. repeat split. Qed.

(** ** Paths *)

Lemma append_inj_l (s a b : string) : s +:+ a = s +:+ b -> a = b.
Proof.
  induction s as [|c s IH]; simpl; intros H.
  - exact H.
  - injection H as H. auto.
Qed.

Lemma cert_key_distinct cfg : cert_path cfg <> key_path cfg.
Proof.
  unfold cert_path, key_path. intros H.
  apply append_inj_l in H. discriminate H.
Qed.

(** ** The operating system layer *)

Lemma has_creat_excl :
  has_flag credential_flags O_CREAT && has_flag credential_flags O_EXCL = true.
Proof. reflexivity. Qed.

Lemma os_open_excl_exists env path mode st :
  is_Some (fs st !! path) ->
  os_open env path credential_flags mode st = (Raise (FileExistsError path), st).
Proof.
  intros [f Hf]. unfold os_open. rewrite Hf, has_creat_excl. reflexivity.
Qed.

Lemma os_open_excl_fresh env path mode st :
  fs st !! path = None ->
  os_open env path credential_flags mode st =
  if open_refused env path then (Raise (PermissionError path), st)
  else (Ret tt,
        set_fs (<[path := {| f_mode := Z.land mode (Z.lnot (umask env));
                             f_data := [] |}]> (fs st)) st).
Proof. intros Hf. unfold os_open. rewrite Hf. reflexivity. Qed.

Lemma unlink_each_spec paths : forall st,
  exists st', unlink_each paths st = (Ret tt, st') /\
    fs st' = foldl (fun m p => delete p m) (fs st) paths /\
    same_but_fs st st'.
Proof.
  induction paths as [|p paths IH]; intros st; simpl.
  - exists st. split; [reflexivity|]. split; [reflexivity|apply same_but_fs_refl].
  - unfold os_path_exists. case_bool_decide as Hex.
    + destruct Hex as [f Hf]. unfold bind, os_unlink. rewrite Hf.
      destruct (IH (set_fs (delete p (fs st)) st)) as (st' & Hrun & Hfs & Hfr).
      exists st'. split; [exact Hrun|]. split; [exact Hfs|].
      eapply same_but_fs_trans; [apply same_but_fs_set_fs|exact Hfr].
    + assert (Hnone : fs st !! p = None).
      { destruct (fs st !! p) eqn:E; [exfalso; apply Hex; eauto|reflexivity]. }
      destruct (IH st) as (st' & Hrun & Hfs & Hfr).
      exists st'. split; [exact Hrun|]. split; [|exact Hfr].
      rewrite Hfs. f_equal. symmetry. apply delete_id. exact Hnone.
Qed.

Lemma try_finally_unlink {A} (c : M A) paths st :
  exists st', try_finally c (unlink_each paths) st = ((c st).1, st') /\
    fs st' = foldl (fun m p => delete p m) (fs (c st).2) paths /\
    same_but_fs (c st).2 st'.
Proof.
  unfold try_finally. destruct (c st) as [r st1]. simpl.
  destruct (unlink_each_spec paths st1) as (st' & Hrun & Hfs & Hfr).
  rewrite Hrun. exists st'. auto.
Qed.

(** Whatever the block does, the scope ends with both paths free. *)
Lemma temp_write_credentials_clears {A} env cfg (body : string -> string -> M A) st :
  creds_absent cfg (temp_write_credentials env cfg body st).2.
Proof.
  unfold temp_write_credentials.
  match goal with |- context [try_finally ?c ?f st] =>
    destruct (try_finally_unlink c [cert_path cfg; key_path cfg] st)
      as (st' & Hrun & Hfs & _) end.
  rewrite Hrun. simpl in *. unfold creds_absent. rewrite Hfs. split.
  - destruct (decide (key_path cfg = cert_path cfg)) as [->|Hne].
    + apply lookup_delete_eq.
    + rewrite lookup_delete_ne by exact Hne. apply lookup_delete_eq.
  - apply lookup_delete_eq.
Qed.

Lemma os_open_frame env path flags mode st :
  same_but_fs st (os_open env path flags mode st).2.
Proof.
  unfold os_open.
  destruct (fs st !! path); repeat case_match; simpl;
    auto using same_but_fs_refl, same_but_fs_set_fs.
Qed.

Lemma file_write_frame env path data st :
  same_but_fs st (file_write env path data st).2.
Proof.
  unfold file_write. case_match; simpl;
    auto using same_but_fs_refl, same_but_fs_set_fs.
Qed.

Lemma write_each_frame env flags items : forall st,
  same_but_fs st (write_each env flags items st).2.
Proof.
  induction items as [|[path data] items IH]; intros st; simpl.
  - apply same_but_fs_refl.
  - unfold bind.
    pose proof (os_open_frame env path flags mode_0o600 st) as H1.
    destruct (os_open env path flags mode_0o600 st) as [[[]|e] st1]; simpl in *;
      [|exact H1].
    pose proof (file_write_frame env path data st1) as H2.
    destruct (file_write env path data st1) as [[[]|e] st2]; simpl in *.
    + eapply same_but_fs_trans; [exact H1|].
      eapply same_but_fs_trans; [exact H2|apply IH].
    + eapply same_but_fs_trans; eauto.
Qed.

(** ** The client pool *)

Lemma get_client_hit env cfg st c :
  clients st !! (principal cfg, keytab cfg) = Some c ->
  _get_client env cfg st = (Ret c, st).
Proof. intros H. unfold _get_client. rewrite H. reflexivity. Qed.

Lemma get_client_miss env cfg st :
  clients st !! (principal cfg, keytab cfg) = None ->
  exists c st',
    _get_client env cfg st = (Ret c, st') /\
    client_object c = next_object st /\
    clients st' = <[(principal cfg, keytab cfg) := c]> (clients st) /\
    next_object st' = S (next_object st) /\
    trace st' = trace st ++ [EvNewClient (principal cfg, keytab cfg) (next_object st)] /\
    app_id st' = app_id st /\ fs st' = fs st /\ clock st' = S (clock st) /\
    draws st' = S (draws st).
Proof.
  intros H. unfold _get_client. rewrite H. simpl.
  eexists _, _. split; [reflexivity|]. simpl. repeat split.
Qed.

Lemma get_client_total env cfg st :
  exists c st',
    _get_client env cfg st = (Ret c, st') /\
    clients st' !! (principal cfg, keytab cfg) = Some c /\
    trace st' = trace st ++ construction cfg st /\
    app_id st' = app_id st /\ fs st' = fs st.
Proof.
  unfold construction.
  destruct (clients st !! (principal cfg, keytab cfg)) as [c|] eqn:E.
  - exists c, st. rewrite (get_client_hit _ _ _ _ E).
    rewrite app_nil_r. auto.
  - destruct (get_client_miss env cfg st E)
      as (c & st' & Hrun & _ & Hcl & _ & Htr & Hid & Hfs & _).
    exists c, st'. rewrite Hrun, Hcl, lookup_insert_eq. auto.
Qed.

(** ** The specification builder *)

Lemma build_specification_cases env cfg cert key st :
  match scheduler_command cfg, worker_command cfg with
  | Ret s, Ret w =>
    _build_specification env cfg cert key st =
    (Ret (assemble cfg cert key (Credentials (entropy env (draws st))) s w),
     set_draws (S (draws st)) st)
  | Raise e, _ => _build_specification env cfg cert key st = (Raise e, st)
  | Ret _, Raise e => _build_specification env cfg cert key st = (Raise e, st)
  end.
Proof.
  unfold _build_specification, bind, lift.
  destruct (scheduler_command cfg) as [s|e]; [|reflexivity].
  destruct (worker_command cfg) as [w|e]; reflexivity.
Qed.

Lemma build_specification_frame env cfg cert key st :
  let st' := (_build_specification env cfg cert key st).2 in
  app_id st' = app_id st /\ fs st' = fs st /\ clients st' = clients st /\
  clock st' = clock st /\ trace st' = trace st.
Proof.
  pose proof (build_specification_cases env cfg cert key st) as H.
  destruct (scheduler_command cfg); [destruct (worker_command cfg)|];
    rewrite H; simpl; auto.
Qed.

(** ** [start]: the submission phase *)

Lemma start_submission_clears env cfg st :
  creds_absent cfg (start_submission env cfg st).2.
Proof.
  unfold start_submission, bind.
  destruct (get_client_total env cfg st) as (c & st0 & Hc & _).
  rewrite Hc. apply temp_write_credentials_clears.
Qed.

Lemma with_block_cases env cfg cert key st :
  match with_block env cfg cert key st with
  | (Ret _, st') =>
    exists spec t,
      rm_submit env t spec = Ret (app_id st') /\
      trace st' = trace st ++ [EvSubmit spec]
  | (Raise e, st') =>
    app_id st' = app_id st /\
    ((exists spec t, rm_submit env t spec = Raise e /\
        trace st' = trace st ++ [EvSubmit spec]) \/
     trace st' = trace st)
  end.
Proof.
  unfold with_block, bind.
  pose proof (build_specification_frame env cfg cert key st) as Hb.
  destruct (_build_specification env cfg cert key st) as [[spec|e] st1];
    simpl in Hb; destruct Hb as (Hid & _ & _ & _ & Htr).
  - unfold submit.
    destruct (rm_submit env (clock st1) spec) as [app|e] eqn:Hs; simpl.
    + exists spec, (clock st1). rewrite Htr. auto.
    + split; [exact Hid|]. left. exists spec, (clock st1). rewrite Htr. auto.
  - auto.
Qed.

Lemma start_submission_cases env cfg st :
  match start_submission env cfg st with
  | (Ret _, st') =>
    exists spec t,
      rm_submit env t spec = Ret (app_id st') /\
      trace st' = submission_trace cfg st (Some spec)
  | (Raise e, st') =>
    app_id st' = app_id st /\
    ((exists spec t, rm_submit env t spec = Raise e /\
        trace st' = submission_trace cfg st (Some spec)) \/
     trace st' = submission_trace cfg st None)
  end.
Proof.
  unfold start_submission, submission_trace, bind at 1.
  destruct (get_client_total env cfg st) as (c & st0 & Hc & _ & Htr0 & Hid0 & _).
  rewrite Hc. unfold temp_write_credentials.
  match goal with |- context [try_finally ?body ?f st0] =>
    destruct (try_finally_unlink body [cert_path cfg; key_path cfg] st0)
      as (st' & Hrun & _ & Hfr); rewrite Hrun; clear Hrun;
    revert Hfr end.
  unfold bind.
  pose proof (write_each_frame env credential_flags
    [(cert_path cfg, tls_cert cfg); (key_path cfg, tls_key cfg)] st0) as Hw.
  fold (write_credentials env cfg) in Hw.
  destruct (write_credentials env cfg st0) as [[[]|e] st1];
    simpl in Hw; destruct Hw as (Hid1 & _ & _ & _ & _ & Htr1).
  - pose proof (with_block_cases env cfg (cert_path cfg) (key_path cfg) st1) as Hb.
    destruct (with_block env cfg (cert_path cfg) (key_path cfg) st1)
      as [[[]|e] st2]; simpl; intros (Hid & _ & _ & _ & _ & Htr).
    + destruct Hb as (spec & t & Hs & Htr2). exists spec, t.
      rewrite Hid, Htr, Htr2, Htr1, Htr0, <- app_assoc. auto.
    + destruct Hb as (Hid2 & Hb). split; [congruence|].
      destruct Hb as [(spec & t & Hs & Htr2)|Htr2].
      * left. exists spec, t. rewrite Htr, Htr2, Htr1, Htr0, <- app_assoc. auto.
      * right. rewrite Htr, Htr2, Htr1, Htr0, app_nil_r. auto.
  - simpl. intros (Hid & _ & _ & _ & _ & Htr). split; [congruence|].
    right. rewrite Htr, Htr1, Htr0, app_nil_r. auto.
Qed.

(** ** [start]: the two polling loops *)

Lemma poll_frame_refl st : poll_frame st st.
Proof. repeat split. lia. Qed.

Lemma poll_frame_trans a b c :
  poll_frame a b -> poll_frame b c -> poll_frame a c.
Proof.
  unfold poll_frame. intros (?&?&?&?) (?&?&?&?).
  repeat split; try congruence. lia.
Qed.

Lemma poll_frame_suspend evs st : poll_frame st (suspend evs st).
Proof. repeat split. simpl. lia. Qed.

Create HintDb poll.
#[local] Hint Resolve poll_frame_refl poll_frame_suspend : poll.

Lemma wait_for_running_frame env fuel : forall st r st',
  wait_for_running env fuel st = Some (r, st') -> poll_frame st st'.
Proof.
  induction fuel as [|fuel IH]; intros st r st' H; simpl in H; [discriminate|].
  unfold bind, self_app_id, application_report in H.
  destruct (rm_report env (clock st) (app_id st)) as [rep|e].
  - destruct (is_terminal _).
    + injection H as <- <-. auto with poll.
    + destruct (String.eqb _ _).
      * injection H as <- <-. auto with poll.
      * apply IH in H. eapply poll_frame_trans; [|exact H].
        eapply poll_frame_trans; auto with poll.
  - injection H as <- <-. auto with poll.
Qed.

Lemma wait_for_running_raise env fuel : forall st e st',
  wait_for_running env fuel st = Some (Raise e, st') ->
  poll_failure env (app_id st) e.
Proof.
  induction fuel as [|fuel IH]; intros st e st' H; simpl in H; [discriminate|].
  unfold bind, self_app_id, application_report in H.
  destruct (rm_report env (clock st) (app_id st)) as [rep|e0] eqn:Hrep.
  - destruct (is_terminal _) eqn:Hterm.
    + injection H as <- <-. left. simpl. eauto.
    + destruct (String.eqb _ _); [discriminate|].
      apply IH in H. exact H.
  - injection H as <- <-. right. eauto.
Qed.

Lemma wait_for_running_ret env fuel : forall st u st',
  wait_for_running env fuel st = Some (Ret u, st') ->
  exists tr t,
    trace st' = tr ++ [EvReport (app_id st)] /\
    rm_report env t (app_id st) = Ret {| state := RUNNING |} /\
    clock st' = S t.
Proof.
  induction fuel as [|fuel IH]; intros st u st' H; simpl in H; [discriminate|].
  unfold bind, self_app_id, application_report in H.
  destruct (rm_report env (clock st) (app_id st)) as [[s]|e0] eqn:Hrep.
  - destruct (is_terminal _) eqn:Hterm; [discriminate|].
    destruct (String.eqb _ _) eqn:Hrun.
    + injection H as <- <-. exists (trace st), (clock st). simpl in *.
      destruct s; try discriminate. auto.
    + apply IH in H. exact H.
  - discriminate.
Qed.

Lemma wait_for_address_frame env fuel : forall st r st',
  wait_for_address env fuel st = Some (r, st') -> poll_frame st st'.
Proof.
  induction fuel as [|fuel IH]; intros st r st' H; simpl in H;
    destruct (truthy (getattr_scheduler_address env st)); simpl in H;
    try discriminate; try (injection H as <- <-; auto with poll).
  unfold bind, sleep, self_app_id, application_report in H.
  destruct (rm_report env _ _) as [rep|e].
  - destruct (is_terminal _).
    + injection H as <- <-.
      eapply poll_frame_trans; auto with poll.
    + apply IH in H. eapply poll_frame_trans; [|exact H].
      eapply poll_frame_trans; auto with poll.
  - injection H as <- <-. eapply poll_frame_trans; auto with poll.
Qed.

Lemma wait_for_address_raise env fuel : forall st e st',
  wait_for_address env fuel st = Some (Raise e, st') ->
  poll_failure env (app_id st) e.
Proof.
  induction fuel as [|fuel IH]; intros st e st' H; simpl in H;
    destruct (truthy (getattr_scheduler_address env st)); simpl in H;
    try discriminate.
  unfold bind, sleep, self_app_id, application_report in H.
  destruct (rm_report env _ _) as [rep|e0] eqn:Hrep.
  - destruct (is_terminal _) eqn:Hterm.
    + injection H as <- <-. left. simpl in *. eauto.
    + apply IH in H. exact H.
  - injection H as <- <-. right. simpl in *. eauto.
Qed.

(** The second loop ends normally only on a non-empty address. *)
Lemma wait_for_address_ret env fuel : forall st u st',
  wait_for_address env fuel st = Some (Ret u, st') ->
  truthy (getattr_scheduler_address env st') = true.
Proof.
  induction fuel as [|fuel IH]; intros st u st' H; simpl in H;
    destruct (truthy (getattr_scheduler_address env st)) eqn:Ha; simpl in H;
    try discriminate; try (injection H as <- <-; exact Ha).
  unfold bind, sleep, self_app_id, application_report in H.
  destruct (rm_report env _ _) as [rep|e0]; [|discriminate].
  destruct (is_terminal _); [discriminate|].
  apply IH in H. exact H.
Qed.

(** With the address already there the second loop does nothing at all. *)
Lemma wait_for_address_now env fuel st :
  truthy (getattr_scheduler_address env st) = true ->
  wait_for_address env fuel st = Some (Ret tt, st).
Proof. intros H. destruct fuel; simpl; rewrite H; reflexivity. Qed.

Lemma truthy_address env st :
  truthy (getattr_scheduler_address env st) = true ->
  exists a, scheduler_address_at env (clock st) = Some a /\ a <> "".
Proof.
  unfold truthy, getattr_scheduler_address.
  destruct (scheduler_address_at env (clock st)) as [a|]; simpl; [|discriminate].
  intros H. exists a. split; [reflexivity|].
  intros ->. discriminate H.
Qed.

Lemma address_truthy env st a :
  scheduler_address_at env (clock st) = Some a -> a <> "" ->
  truthy (getattr_scheduler_address env st) = true.
Proof.
  unfold truthy, getattr_scheduler_address. intros -> Ha. simpl.
  destruct (String.eqb_spec a ""); [contradiction|reflexivity].
Qed.


(** ** The whole of [start] *)

Lemma start_unfold_ok env cfg fuel st st1 st2 st3 :
  start_submission env cfg st = (Ret tt, st1) ->
  wait_for_running env fuel st1 = Some (Ret tt, st2) ->
  wait_for_address env fuel st2 = Some (Ret tt, st3) ->
  start env cfg fuel st = Some (return_addresses env st3).
Proof. intros H1 H2 H3. unfold start. rewrite H1, H2, H3. reflexivity. Qed.

(** The three ways [start] produces a result. *)
Lemma start_inv env cfg fuel st r st' :
  start env cfg fuel st = Some (r, st') ->
  (exists e, r = Raise e /\ start_submission env cfg st = (Raise e, st')) \/
  (exists st1, start_submission env cfg st = (Ret tt, st1) /\
     ((exists e, r = Raise e /\
         (wait_for_running env fuel st1 = Some (Raise e, st') \/
          exists st2, wait_for_running env fuel st1 = Some (Ret tt, st2) /\
                      wait_for_address env fuel st2 = Some (Raise e, st'))) \/
      (exists st2, wait_for_running env fuel st1 = Some (Ret tt, st2) /\
                   wait_for_address env fuel st2 = Some (Ret tt, st') /\
                   return_addresses env st' = (r, st')))).
Proof.
  unfold start. intros H.
  destruct (start_submission env cfg st) as [[[]|e] st1].
  2:{ injection H as <- <-. left. eauto. }
  right. exists st1. split; [reflexivity|].
  destruct (wait_for_running env fuel st1) as [[[[]|e] st2]|] eqn:Hrun;
    [| |discriminate].
  2:{ injection H as <- <-. left. eauto. }
  destruct (wait_for_address env fuel st2) as [[[[]|e] st3]|] eqn:Haddr;
    [| |discriminate].
  2:{ injection H as <- <-. left. exists e. split; [reflexivity|].
      right. exists st2. auto. }
  right. exists st2. split; [reflexivity|].
  assert (st3 = st') as ->.
  { unfold return_addresses in H.
    destruct (scheduler_address_at env (clock st3)); injection H; auto. }
  split; [exact Haddr|]. congruence.
Qed.

(** C1: for every environment (every sequence of reports, every moment
    at which the address appears), a [start] that returns its pair of
    endpoints returns a non-empty scheduler address, the one the
    controller holds at that moment; the application was reported
    RUNNING before. *)
Theorem start_returns_only_with_address env cfg fuel st a d st' :
  start env cfg fuel st = Some (Ret (a, d), st') ->
  a <> "" /\
  scheduler_address_at env (clock st') = Some a /\
  getattr_scheduler_address env st' = a /\
  d = dashboard_address_at env (clock st') /\
  exists t, rm_report env t (app_id st') = Ret {| state := RUNNING |}.
Proof.
  intros H. apply start_inv in H.
  destruct H as [(e & He & _)|(st1 & Hsub & [(e & He & _)|(st2 & Hrun & Haddr & Hret)])];
    try congruence.
  pose proof (wait_for_address_ret _ _ _ _ _ Haddr) as Htruthy.
  destruct (truthy_address _ _ Htruthy) as (a' & Ha' & Hne).
  unfold return_addresses in Hret. rewrite Ha' in Hret.
  injection Hret as <- <-.
  repeat split; auto.
  - unfold getattr_scheduler_address. rewrite Ha'. reflexivity.
  - destruct (wait_for_running_ret _ _ _ _ _ Hrun) as (tr & t & _ & Hrep & _).
    apply wait_for_running_frame in Hrun. apply wait_for_address_frame in Haddr.
    destruct Hrun as (_ & Hid1 & _), Haddr as (_ & Hid2 & _).
    exists t. rewrite Hid2, Hid1. exact Hrep.
Qed.

Lemma start_returns_only_with_address_witness :
  Scenario.address <> "" /\
  scheduler_address_at Scenario.env_A 11 = Some Scenario.address.
Proof.
  destruct (start_returns_only_with_address Scenario.env_A Scenario.cfg 5
              Scenario.fresh Scenario.address "http://10.0.0.1:8787"
              (Scenario.state_after (start Scenario.env_A Scenario.cfg 5 Scenario.fresh)))
    as (H1 & H2 & _).
  - vm_compute. reflexivity.
  - split; [exact H1|exact H2].
Defined.

(** C10: when the first loop has just seen RUNNING and the scheduler
    address is already non-empty, [start] returns the pair of addresses
    in that very state: the second loop costs nothing, and the last
    event of the run is the poll that saw RUNNING. *)
Theorem start_returns_at_once env cfg fuel st st1 st2 a :
  start_submission env cfg st = (Ret tt, st1) ->
  wait_for_running env fuel st1 = Some (Ret tt, st2) ->
  scheduler_address_at env (clock st2) = Some a ->
  a <> "" ->
  start env cfg fuel st =
    Some (Ret (a, dashboard_address_at env (clock st2)), st2) /\
  (forall fuel', wait_for_address env fuel' st2 = Some (Ret tt, st2)) /\
  exists tr, trace st2 = tr ++ [EvReport (app_id st1)].
Proof.
  intros Hsub Hrun Ha Hne.
  pose proof (address_truthy _ _ _ Ha Hne) as Htruthy.
  split; [|split].
  - rewrite (start_unfold_ok _ _ _ _ _ _ _ Hsub Hrun
               (wait_for_address_now env fuel st2 Htruthy)).
    unfold return_addresses. rewrite Ha. reflexivity.
  - intros fuel'. apply wait_for_address_now. exact Htruthy.
  - destruct (wait_for_running_ret _ _ _ _ _ Hrun) as (tr & t & Htr & _).
    exists tr. exact Htr.
Qed.

Lemma start_returns_at_once_witness :
  start Scenario.env_ready Scenario.cfg 1 Scenario.fresh =
  Some (Ret (Scenario.address, "http://10.0.0.1:8787"),
        Scenario.state_after
          (wait_for_running Scenario.env_ready 1
             (start_submission Scenario.env_ready Scenario.cfg Scenario.fresh).2)).
Proof.
  refine (proj1 (start_returns_at_once Scenario.env_ready Scenario.cfg 1
                   Scenario.fresh
                   (start_submission Scenario.env_ready Scenario.cfg Scenario.fresh).2
                   _ Scenario.address _ _ _ _)).
  - vm_compute. reflexivity.
  - vm_compute. reflexivity.
  - vm_compute. reflexivity.
  - discriminate.
Defined.

(** The second loop runs its body (a sleep, then a poll) exactly when it
    finds the address empty. *)
Lemma wait_for_address_step env fuel st :
  truthy (getattr_scheduler_address env st) = false ->
  wait_for_address env (S fuel) st =
  match application_report env (app_id st) (suspend [EvSleep] st) with
  | (Raise e, st1) => Some (Raise e, st1)
  | (Ret report, st1) =>
    if is_terminal (str_of_state (state report))
    then Some (Raise (Exception (failure_message (app_id st1))), st1)
    else wait_for_address env fuel st1
  end.
Proof. intros H. simpl. rewrite H. reflexivity. Qed.

(** Polling does not touch the files: [start] ends with the file system
    of the end of its submission phase. *)
Lemma start_keeps_files env cfg fuel st r st' :
  start env cfg fuel st = Some (r, st') ->
  fs st' = fs (start_submission env cfg st).2 /\ creds_absent cfg st'.
Proof.
  intros H.
  pose proof (start_submission_clears env cfg st) as Hclear.
  assert (Hfs : fs st' = fs (start_submission env cfg st).2).
  { apply start_inv in H.
    destruct H as [(e & _ & Hs)|(st1 & Hs & H)]; rewrite Hs; simpl; [reflexivity|].
    destruct H as [(e & _ & [Hr|(st2 & Hr & Ha)])|(st2 & Hr & Ha & _)].
    - apply wait_for_running_frame in Hr. apply Hr.
    - apply wait_for_running_frame in Hr. apply wait_for_address_frame in Ha.
      destruct Hr as (Hr & _), Ha as (Ha & _). congruence.
    - apply wait_for_running_frame in Hr. apply wait_for_address_frame in Ha.
      destruct Hr as (Hr & _), Ha as (Ha & _). congruence. }
  split; [exact Hfs|]. unfold creds_absent in *. rewrite Hfs. exact Hclear.
Qed.

(** C2: the scope of [temp_write_credentials] ends with neither file on
    disk, whatever its body does and however it ends (normal return,
    error in the body, error while creating or writing the files); in
    [start] the files are gone when the submission phase ends, which is
    the state in which the first poll is made, and polling never brings
    them back. *)
Theorem credentials_removed_on_every_exit env cfg :
  (forall A (body : string -> string -> M A) st,
      creds_absent cfg (temp_write_credentials env cfg body st).2) /\
  (forall st, creds_absent cfg (start_submission env cfg st).2) /\
  (forall fuel st r st',
      start env cfg fuel st = Some (r, st') ->
      fs st' = fs (start_submission env cfg st).2 /\ creds_absent cfg st').
Proof.
  split; [|split].
  - intros A body st. apply temp_write_credentials_clears.
  - intros st. apply start_submission_clears.
  - intros fuel st r st' H. eapply start_keeps_files. exact H.
Qed.

Lemma credentials_removed_on_every_exit_witness :
  creds_absent Scenario.cfg
    (Scenario.state_after (start Scenario.env_B Scenario.cfg 5 Scenario.fresh)).
Proof.
  destruct (credentials_removed_on_every_exit Scenario.env_B Scenario.cfg)
    as (_ & _ & H).
  refine (proj2 (H 5 Scenario.fresh
    (Raise (Exception (failure_message Scenario.app))) _ _)).
  vm_compute. reflexivity.
Defined.

(** ** Error messages *)

Lemma prefix_append (s t : string) : String.prefix s (s +:+ t) = true.
Proof.
  induction s as [|c s IH].
  - destruct t; reflexivity.
  - change (String.prefix (String c s) (String c (s +:+ t)) = true). simpl.
    destruct (Ascii.ascii_dec c c); [exact IH|contradiction].
Qed.

Lemma contains_prefix (sub s : string) :
  String.prefix sub s = true -> contains sub s = true.
Proof. intros H. destruct s; cbn [contains]; rewrite H; reflexivity. Qed.

Lemma contains_append (pre sub post : string) :
  contains sub (pre +:+ sub +:+ post) = true.
Proof.
  induction pre as [|c pre IH].
  - change (contains sub (sub +:+ post) = true).
    apply contains_prefix, prefix_append.
  - change (contains sub (String c (pre +:+ sub +:+ post)) = true).
    cbn [contains]. rewrite IH. apply orb_true_r.
Qed.

Lemma failure_message_names app :
  names_application (Exception (failure_message app)) app.
Proof. apply contains_append. Qed.

Lemma get_state_recorded base st :
  app_id st <> "" -> get_state base st !! "app_id" = Some (app_id st).
Proof.
  intros H. unfold get_state, truthy.
  destruct (String.eqb_spec (app_id st) ""); [contradiction|]. simpl.
  apply lookup_insert_eq.
Qed.

(** C8, amended: a failing [start] leaves no credential file; when the
    submission phase raised, the recorded id is what it was before; when
    the failure came after a successful submission, the recorded id is
    the submitted one (and [get_state] persists it), and the error either
    is the one the report call raised, passed on unchanged, or follows a
    reported terminal state and then names the application. *)
Theorem failed_start_postcondition env cfg fuel st e st' :
  start env cfg fuel st = Some (Raise e, st') ->
  creds_absent cfg st' /\
  ((start_submission env cfg st = (Raise e, st') /\ app_id st' = app_id st) \/
   (exists st1 spec t,
      start_submission env cfg st = (Ret tt, st1) /\
      rm_submit env t spec = Ret (app_id st1) /\
      app_id st' = app_id st1 /\
      (app_id st1 <> "" ->
       forall base, get_state base st' !! "app_id" = Some (app_id st1)) /\
      poll_failure env (app_id st1) e /\
      ((forall t', rm_report env t' (app_id st1) <> Raise e) ->
       names_application e (app_id st1)))).
Proof.
  intros H.
  split; [apply (start_keeps_files _ _ _ _ _ _ H)|].
  apply start_inv in H.
  destruct H as [(e0 & He & Hs)|(st1 & Hs & H)].
  - injection He as <-. left. split; [exact Hs|].
    pose proof (start_submission_cases env cfg st) as Hc.
    rewrite Hs in Hc. apply Hc.
  - right.
    pose proof (start_submission_cases env cfg st) as Hc.
    rewrite Hs in Hc. destruct Hc as (spec & t & Hsubmit & _).
    assert (Hpoll : app_id st' = app_id st1 /\ poll_failure env (app_id st1) e).
    { destruct H as [(e0 & He & [Hr|(st2 & Hr & Ha)])|(st2 & _ & Ha & Hret)].
      - injection He as <-. split.
        + apply wait_for_running_frame in Hr. apply Hr.
        + eapply wait_for_running_raise; eauto.
      - injection He as <-.
        pose proof (wait_for_running_frame _ _ _ _ _ Hr) as (_ & Hid1 & _).
        pose proof (wait_for_address_frame _ _ _ _ _ Ha) as (_ & Hid2 & _).
        split; [congruence|].
        rewrite <- Hid1. eapply wait_for_address_raise; eauto.
      - exfalso. apply wait_for_address_ret, truthy_address in Ha.
        destruct Ha as (a & Ha & _).
        unfold return_addresses in Hret. rewrite Ha in Hret. discriminate. }
    destruct Hpoll as (Hid & Hpoll).
    exists st1, spec, t. repeat split; auto.
    + intros Hne base. rewrite <- Hid in *. apply get_state_recorded. exact Hne.
    + intros Hnot. destruct Hpoll as [(-> & _)|(t' & Hr)].
      * apply failure_message_names.
      * exfalso. eapply Hnot. exact Hr.
Qed.

Lemma failed_start_postcondition_witness :
  creds_absent Scenario.cfg
    (Scenario.state_after (start Scenario.env_B Scenario.cfg 5 Scenario.fresh)).
Proof.
  refine (proj1 (failed_start_postcondition Scenario.env_B Scenario.cfg 5
                   Scenario.fresh
                   (Exception (failure_message Scenario.app)) _ _)).
  vm_compute. reflexivity.
Defined.

(** C8 as stated fails: the submission succeeds, the first report call
    raises, and [start] passes that error on; it does not mention the
    application id, which stays recorded. *)
Lemma failed_start_error_without_application_id :
  exists st1 st',
    start_submission Scenario.env_blip Scenario.cfg Scenario.fresh = (Ret tt, st1) /\
    app_id st1 = Scenario.app /\
    start Scenario.env_blip Scenario.cfg 1 Scenario.fresh =
      Some (Raise (ClientError "connection lost"), st') /\
    app_id st' = Scenario.app /\
    ~ names_application (ClientError "connection lost") Scenario.app.
Proof.
  exists (start_submission Scenario.env_blip Scenario.cfg Scenario.fresh).2,
         (Scenario.state_after (start Scenario.env_blip Scenario.cfg 1 Scenario.fresh)).
  split; [vm_compute; reflexivity|].
  split; [vm_compute; reflexivity|].
  split; [vm_compute; reflexivity|].
  split; [vm_compute; reflexivity|].
  unfold names_application. vm_compute. discriminate.
Qed.

(** Scenario A of the specification: three polls in the first loop, two
    in the second, then the pair of addresses. *)
Example scenario_A :
  exists st',
    start Scenario.env_A Scenario.cfg 3 Scenario.fresh =
      Some (Ret (Scenario.address, "http://10.0.0.1:8787"), st') /\
    app_id st' = Scenario.app /\
    count_events is_report (trace st') = 5.
Proof.
  exists (Scenario.state_after (start Scenario.env_A Scenario.cfg 3 Scenario.fresh)).
  split; [vm_compute; reflexivity|]. split; vm_compute; reflexivity.
Qed.

(** ** The credential files *)

Lemma set_fs_set_fs f g st : set_fs f (set_fs g st) = set_fs f st.
Proof. reflexivity. Qed.

Lemma create_and_write env path data st :
  fs st !! path = None ->
  (run os_open env path credential_flags mode_0o600; file_write env path data) st =
  if open_refused env path then (Raise (PermissionError path), st)
  else if write_fails env path
       then (Raise (OSError path), set_fs (<[path := created env []]> (fs st)) st)
       else (Ret tt, set_fs (<[path := created env data]> (fs st)) st).
Proof.
  intros Hf. unfold bind. rewrite (os_open_excl_fresh _ _ _ _ Hf).
  destruct (open_refused env path); [reflexivity|].
  unfold file_write. destruct (write_fails env path); [reflexivity|].
  simpl. rewrite set_fs_set_fs. f_equal. f_equal.
  rewrite alter_insert_eq. unfold created. simpl.
  rewrite drop_nil, app_nil_r. reflexivity.
Qed.

(** Every way the writing phase can go. *)
Lemma write_credentials_eq env cfg st :
  write_credentials env cfg st =
  match fs st !! cert_path cfg with
  | Some _ => (Raise (FileExistsError (cert_path cfg)), st)
  | None =>
    if open_refused env (cert_path cfg)
    then (Raise (PermissionError (cert_path cfg)), st)
    else if write_fails env (cert_path cfg)
    then (Raise (OSError (cert_path cfg)),
          set_fs (<[cert_path cfg := created env []]> (fs st)) st)
    else
      let fs1 := <[cert_path cfg := created env (tls_cert cfg)]> (fs st) in
      match fs st !! key_path cfg with
      | Some _ => (Raise (FileExistsError (key_path cfg)), set_fs fs1 st)
      | None =>
        if open_refused env (key_path cfg)
        then (Raise (PermissionError (key_path cfg)), set_fs fs1 st)
        else if write_fails env (key_path cfg)
        then (Raise (OSError (key_path cfg)),
              set_fs (<[key_path cfg := created env []]> fs1) st)
        else (Ret tt,
              set_fs (<[key_path cfg := created env (tls_key cfg)]> fs1) st)
      end
  end.
Proof.
  pose proof (cert_key_distinct cfg) as Hne.
  unfold write_credentials. cbn [write_each].
  destruct (fs st !! cert_path cfg) as [f|] eqn:Hc.
  - unfold bind at 1 2. rewrite os_open_excl_exists by eauto. reflexivity.
  - unfold bind at 1.
    pose proof (create_and_write env (cert_path cfg) (tls_cert cfg) st Hc) as H1.
    unfold bind in H1 at 1.
    destruct (os_open env (cert_path cfg) credential_flags mode_0o600 st)
      as [[[]|e] sa] eqn:Ho.
    + unfold bind at 1. rewrite H1.
      destruct (open_refused env (cert_path cfg)); [reflexivity|].
      destruct (write_fails env (cert_path cfg)); [reflexivity|].
      cbn beta iota zeta.
      set (st1 := set_fs _ st).
      assert (Hk : fs st1 !! key_path cfg = fs st !! key_path cfg).
      { subst st1. simpl. apply lookup_insert_ne. exact Hne. }
      destruct (fs st !! key_path cfg) as [g|] eqn:Hkey.
      * unfold bind at 1 2. rewrite os_open_excl_exists by (rewrite Hk; eauto).
        reflexivity.
      * pose proof (create_and_write env (key_path cfg) (tls_key cfg) st1 Hk) as H2.
        unfold bind in H2 at 1. unfold bind at 1.
        destruct (os_open env (key_path cfg) credential_flags mode_0o600 st1)
          as [[[]|e] sb] eqn:Ho2.
        -- unfold bind at 1. rewrite H2.
           destruct (open_refused env (key_path cfg)); [reflexivity|].
           destruct (write_fails env (key_path cfg)); reflexivity.
        -- rewrite H2.
           destruct (open_refused env (key_path cfg)); [reflexivity|].
           destruct (write_fails env (key_path cfg)); reflexivity.
    + rewrite H1.
      destruct (open_refused env (cert_path cfg)); [reflexivity|].
      destruct (write_fails env (cert_path cfg)); [reflexivity|].
      discriminate H1.
Qed.

Lemma mode_private (u : Z) :
  Z.land (Z.land mode_0o600 (Z.lnot u)) group_other_bits = 0%Z.
Proof.
  rewrite <- Z.land_assoc, (Z.land_comm (Z.lnot u)), Z.land_assoc.
  change (Z.land mode_0o600 group_other_bits) with 0%Z. apply Z.land_0_l.
Qed.

Lemma mode_within (u : Z) :
  Z.land (Z.land mode_0o600 (Z.lnot u)) (Z.lnot mode_0o600) = 0%Z.
Proof.
  rewrite <- Z.land_assoc, (Z.land_comm (Z.lnot u)), Z.land_assoc.
  rewrite Z.land_lnot_diag. apply Z.land_0_l.
Qed.

Lemma mode_exact (u : Z) :
  Z.land u mode_0o600 = 0%Z -> Z.land mode_0o600 (Z.lnot u) = mode_0o600.
Proof.
  intros H. apply Z.bits_inj'. intros n Hn.
  rewrite Z.land_spec, Z.lnot_spec by exact Hn.
  apply (f_equal (fun z => Z.testbit z n)) in H.
  rewrite Z.land_spec, Z.bits_0 in H.
  destruct (Z.testbit u n), (Z.testbit mode_0o600 n); simpl in *; congruence.
Qed.

Lemma temp_write_credentials_result {A} env cfg (body : string -> string -> M A) st :
  (temp_write_credentials env cfg body st).1 =
  match write_credentials env cfg st with
  | (Ret _, st1) => (body (cert_path cfg) (key_path cfg) st1).1
  | (Raise e, _) => Raise e
  end.
Proof.
  unfold temp_write_credentials.
  match goal with |- context [try_finally ?c ?f st] =>
    destruct (try_finally_unlink c [cert_path cfg; key_path cfg] st)
      as (st' & Hrun & _) end.
  rewrite Hrun. simpl. unfold bind.
  destruct (write_credentials env cfg st) as [[[]|e] st1]; reflexivity.
Qed.

Ltac write_cases env cfg st :=
  rewrite (write_credentials_eq env cfg st); cbn zeta;
  repeat case_match; cbn [fst snd fs set_fs].

Ltac lookup_cases :=
  repeat match goal with
         | H : context [<[_ := _]> _ !! _] |- _ =>
           rewrite lookup_insert in H; case_decide
         | |- context [<[_ := _]> _ !! _] =>
           rewrite lookup_insert; case_decide
         end;
  simplify_eq.

(** A file found after the writing phase was there before, or is one of
    the two credential files, newly created. *)
Lemma written_files env cfg st p f :
  fs (write_credentials env cfg st).2 !! p = Some f ->
  fs st !! p = Some f \/
  (fs st !! p = None /\ (p = cert_path cfg \/ p = key_path cfg) /\
   exists data, f = created env data).
Proof.
  pose proof (cert_key_distinct cfg) as Hne.
  write_cases env cfg st; intros Hf; lookup_cases; eauto 10.
Qed.

(** A file in the way of a credential file stops the phase and stays as
    it is. *)
Lemma written_keeps env cfg st p f :
  p = cert_path cfg \/ p = key_path cfg ->
  fs st !! p = Some f ->
  fs (write_credentials env cfg st).2 !! p = Some f /\
  exists e, (write_credentials env cfg st).1 = Raise e.
Proof.
  pose proof (cert_key_distinct cfg) as Hne.
  write_cases env cfg st; intros [->| ->] Hf; lookup_cases; eauto.
Qed.

Lemma written_ok env cfg st :
  (write_credentials env cfg st).1 = Ret tt ->
  fs st !! cert_path cfg = None /\ fs st !! key_path cfg = None /\
  fs (write_credentials env cfg st).2 !! cert_path cfg
    = Some (created env (tls_cert cfg)) /\
  fs (write_credentials env cfg st).2 !! key_path cfg
    = Some (created env (tls_key cfg)).
Proof.
  pose proof (cert_key_distinct cfg) as Hne.
  write_cases env cfg st; intros Hr; try discriminate Hr.
  repeat split; auto; lookup_cases; auto.
Qed.

(** C3: both files are created exclusively and privately.  With both
    paths free and no fault of the operating system, the writing phase
    creates the certificate file and then the key file, each with mode
    [0o600 & ~umask] and the given bytes, and the body of the scope runs
    in that state.  A file that is already at one of the two paths makes
    the writing phase raise (a [FileExistsError] once that path is
    reached), the body of the scope is not run, and the file is not
    written to; every file the phase creates is one of the two and has
    mode [0o600 & ~umask], so no bit of group or others and nothing
    beyond owner read and write; when the phase succeeds both files are
    new and hold the given bytes. *)
Theorem credentials_created_exclusively_and_private
    {A} env cfg (body : string -> string -> M A) st :
  let written := write_credentials env cfg st in
  (fs st !! cert_path cfg = None ->
   fs st !! key_path cfg = None ->
   open_refused env (cert_path cfg) = false ->
   write_fails env (cert_path cfg) = false ->
   open_refused env (key_path cfg) = false ->
   write_fails env (key_path cfg) = false ->
   written =
     (Ret tt,
      set_fs (<[key_path cfg := created env (tls_key cfg)]>
                (<[cert_path cfg := created env (tls_cert cfg)]> (fs st))) st) /\
   (temp_write_credentials env cfg body st).1
   = (body (cert_path cfg) (key_path cfg) written.2).1) /\
  (forall p f,
      p = cert_path cfg \/ p = key_path cfg -> fs st !! p = Some f ->
      exists e, written.1 = Raise e /\
                (temp_write_credentials env cfg body st).1 = Raise e /\
                fs written.2 !! p = Some f) /\
  (is_Some (fs st !! cert_path cfg) ->
   written = (Raise (FileExistsError (cert_path cfg)), st)) /\
  (fs st !! cert_path cfg = None ->
   open_refused env (cert_path cfg) = false ->
   write_fails env (cert_path cfg) = false ->
   is_Some (fs st !! key_path cfg) ->
   written.1 = Raise (FileExistsError (key_path cfg))) /\
  (forall p f,
      fs written.2 !! p = Some f -> fs st !! p = None ->
      (p = cert_path cfg \/ p = key_path cfg) /\
      f_mode f = Z.land mode_0o600 (Z.lnot (umask env)) /\
      Z.land (f_mode f) group_other_bits = 0%Z /\
      Z.land (f_mode f) (Z.lnot mode_0o600) = 0%Z /\
      (Z.land (umask env) mode_0o600 = 0%Z -> f_mode f = mode_0o600)) /\
  (written.1 = Ret tt ->
   fs st !! cert_path cfg = None /\ fs st !! key_path cfg = None /\
   fs written.2 !! cert_path cfg = Some (created env (tls_cert cfg)) /\
   fs written.2 !! key_path cfg = Some (created env (tls_key cfg))).
Proof.
  intros written. subst written.
  split; [|repeat apply conj].
  - intros Hc Hk Hoc Hwc Hok Hwk.
    assert (Heq : write_credentials env cfg st =
      (Ret tt,
       set_fs (<[key_path cfg := created env (tls_key cfg)]>
                 (<[cert_path cfg := created env (tls_cert cfg)]> (fs st))) st)).
    { rewrite write_credentials_eq, Hc, Hoc, Hwc. cbn zeta.
      rewrite Hk, Hok, Hwk. reflexivity. }
    split; [exact Heq|].
    rewrite temp_write_credentials_result, Heq. reflexivity.
  - intros p f Hp Hf.
    destruct (written_keeps env cfg st p f Hp Hf) as (Hkeep & e & He).
    exists e. repeat split; auto.
    rewrite temp_write_credentials_result.
    destruct (write_credentials env cfg st) as [[[]|e'] st1]; simpl in He; congruence.
  - intros [f Hf]. rewrite write_credentials_eq, Hf. reflexivity.
  - intros Hc Ho Hw [f Hf]. rewrite write_credentials_eq, Hc, Ho, Hw, Hf.
    reflexivity.
  - intros p f Hf Hnone.
    destruct (written_files env cfg st p f Hf) as [Hold|(_ & Hp & data & ->)];
      [congruence|].
    simpl. repeat split; auto using mode_private, mode_within, mode_exact.
  - apply written_ok.
Qed.

Lemma credentials_created_exclusively_and_private_witness :
  (fs (write_credentials Scenario.env_A Scenario.cfg Scenario.fresh).2
     !! "/tmp/c1.crt" = Some {| f_mode := 384; f_data := [Byte.x41] |} /\
   fs (write_credentials Scenario.env_A Scenario.cfg Scenario.fresh).2
     !! "/tmp/c1.pem" = Some {| f_mode := 384; f_data := [Byte.x42] |}) /\
  (temp_write_credentials Scenario.env_A Scenario.cfg
     (with_block Scenario.env_A Scenario.cfg) Scenario.stale).1
  = Raise (FileExistsError "/tmp/c1.crt").
Proof.
  split.
  - destruct (credentials_created_exclusively_and_private
                Scenario.env_A Scenario.cfg
                (with_block Scenario.env_A Scenario.cfg) Scenario.fresh)
      as (H & _).
    destruct H as (Heq & _);
      [reflexivity|reflexivity|reflexivity|reflexivity|reflexivity|reflexivity|].
    rewrite Heq. split; vm_compute; reflexivity.
  - destruct (credentials_created_exclusively_and_private
                Scenario.env_A Scenario.cfg
                (with_block Scenario.env_A Scenario.cfg) Scenario.stale)
      as (_ & H & _).
    destruct (H "/tmp/c1.crt" {| f_mode := 420; f_data := [] |})
      as (e & He & Hres & _).
    + left. vm_compute. reflexivity.
    + vm_compute. reflexivity.
    + rewrite Hres, <- He. vm_compute. reflexivity.
Defined.

(** ** The pool invariant *)

Lemma pool_ok_empty st : clients st = ∅ -> pool_ok st.
Proof.
  intros H. unfold pool_ok. rewrite H. split.
  - intros k c Hk. rewrite lookup_empty in Hk. discriminate.
  - intros k1 k2 c1 c2 Hk. rewrite lookup_empty in Hk. discriminate.
Qed.

Lemma get_client_spec env cfg st c st' :
  pool_ok st ->
  _get_client env cfg st = (Ret c, st') ->
  pool_ok st' /\
  clients st' !! (principal cfg, keytab cfg) = Some c /\
  (forall k c', clients st !! k = Some c' -> clients st' !! k = Some c') /\
  ((clients st !! (principal cfg, keytab cfg) = Some c /\ st' = st) \/
   (clients st !! (principal cfg, keytab cfg) = None /\
    client_object c = next_object st /\
    next_object st' = S (next_object st))).
Proof.
  intros [Hlt Hinj] Hrun.
  destruct (clients st !! (principal cfg, keytab cfg)) as [c0|] eqn:E.
  - rewrite (get_client_hit _ _ _ _ E) in Hrun. injection Hrun as <- <-.
    repeat split; auto.
  - destruct (get_client_miss env cfg st E)
      as (c1 & st1 & Hrun1 & Hobj & Hcl & Hnext & _).
    rewrite Hrun1 in Hrun. injection Hrun as <- <-.
    split; [|split; [|split]].
    + split.
      * intros k c' Hk. rewrite Hcl, lookup_insert in Hk. rewrite Hnext.
        case_decide; simplify_eq; [lia|]. apply Hlt in Hk. lia.
      * intros k1 k2 d1 d2 H1 H2 Heq. rewrite Hcl in H1, H2.
        rewrite lookup_insert in H1, H2.
        repeat case_decide; simplify_eq; auto;
          try (eapply Hinj; eassumption);
          exfalso;
          match goal with
          | H : clients st !! _ = Some _ |- _ => apply Hlt in H; lia
          end.
    + rewrite Hcl. apply lookup_insert_eq.
    + intros k c' Hk. rewrite Hcl, lookup_insert. case_decide; simplify_eq.
      exact Hk.
    + right. auto.
Qed.

(** C4: two acquisitions in a row.  With equal identities (both fields
    absent included) the second returns the very client of the first and
    changes nothing, so it constructs no client; with distinct identities
    the two clients are distinct objects, each kept under its own
    identity. *)
Theorem get_client_shares_by_identity env cfg1 cfg2 st c1 st1 c2 st2 :
  pool_ok st ->
  _get_client env cfg1 st = (Ret c1, st1) ->
  _get_client env cfg2 st1 = (Ret c2, st2) ->
  pool_ok st2 /\
  ((principal cfg1, keytab cfg1) = (principal cfg2, keytab cfg2) ->
   c2 = c1 /\ st2 = st1) /\
  ((principal cfg1, keytab cfg1) <> (principal cfg2, keytab cfg2) ->
   client_object c2 <> client_object c1 /\
   clients st2 !! (principal cfg1, keytab cfg1) = Some c1 /\
   clients st2 !! (principal cfg2, keytab cfg2) = Some c2).
Proof.
  intros Hok H1 H2.
  destruct (get_client_spec _ _ _ _ _ Hok H1) as (Hok1 & Hc1 & _ & _).
  destruct (get_client_spec _ _ _ _ _ Hok1 H2) as (Hok2 & Hc2 & Hmono & _).
  split; [exact Hok2|]. split.
  - intros Heq. rewrite Heq in Hc1.
    rewrite (get_client_hit _ _ _ _ Hc1) in H2. injection H2 as <- <-. auto.
  - intros Hne. apply Hmono in Hc1. repeat split; auto.
    intros Hobj. destruct Hok2 as [_ Hinj].
    apply Hne. symmetry. eapply Hinj; eauto.
Qed.

Lemma get_client_shares_by_identity_witness :
  pool_ok
    (_get_client Scenario.env_A Scenario.kerberos_cfg
       (_get_client Scenario.env_A Scenario.cfg Scenario.fresh).2).2.
Proof.
  refine (proj1 (get_client_shares_by_identity Scenario.env_A
              Scenario.cfg Scenario.kerberos_cfg Scenario.fresh
              {| client_object := 0; client_principal := None;
                 client_keytab := None; client_security := Credentials 0 |}
              (_get_client Scenario.env_A Scenario.cfg Scenario.fresh).2
              {| client_object := 1; client_principal := Some "dask";
                 client_keytab := Some "/etc/dask.keytab";
                 client_security := Credentials 1 |}
              _ _ _ _)).
  - apply pool_ok_empty. reflexivity.
  - vm_compute. reflexivity.
  - vm_compute. reflexivity.
Defined.

(** ** [is_running] and [stop] *)

Lemma count_events_app p (a b : list event) :
  count_events p (a ++ b) = count_events p a + count_events p b.
Proof. unfold count_events. rewrite List.filter_app, length_app. reflexivity. Qed.

Lemma construction_no_call cfg st :
  count_events is_rm_call (construction cfg st) = 0 /\
  (construction cfg st = [] \/
   construction cfg st
     = [EvNewClient (principal cfg, keytab cfg) (next_object st)]).
Proof.
  unfold construction.
  destruct (clients st !! (principal cfg, keytab cfg)); auto.
Qed.

Lemma construction_cached cfg st c :
  clients st !! (principal cfg, keytab cfg) = Some c -> construction cfg st = [].
Proof. unfold construction. intros ->. reflexivity. Qed.

(** C5: without a recorded id [is_running] answers [False] and touches
    nothing; with one it makes exactly one call on the resource manager,
    the report query for that id, answers [True] exactly when the
    reported state is RUNNING, and leaves the recorded id and the files
    as they were. *)
Theorem is_running_spec env cfg st :
  (app_id st = "" -> is_running env cfg st = (Ret false, st)) /\
  (app_id st <> "" ->
   exists c st0,
     _get_client env cfg st = (Ret c, st0) /\
     trace (is_running env cfg st).2
       = trace st ++ construction cfg st ++ [EvReport (app_id st)] /\
     count_events is_rm_call (trace (is_running env cfg st).2)
       = S (count_events is_rm_call (trace st)) /\
     app_id (is_running env cfg st).2 = app_id st /\
     fs (is_running env cfg st).2 = fs st /\
     (forall rep,
         rm_report env (clock st0) (app_id st) = Ret rep ->
         exists b, (is_running env cfg st).1 = Ret b /\
                   (b = true <-> state rep = RUNNING)) /\
     (forall e,
         rm_report env (clock st0) (app_id st) = Raise e ->
         (is_running env cfg st).1 = Raise e)).
Proof.
  split.
  - intros H. unfold is_running. rewrite H. reflexivity.
  - intros H. unfold is_running.
    destruct (String.eqb_spec (app_id st) ""); [contradiction|].
    destruct (get_client_total env cfg st) as (c & st0 & Hc & _ & Htr & Hid & Hfs).
    exists c, st0. split; [exact Hc|].
    set (is_running_body := fun _ : unit =>
           (do client <- _get_client env cfg;
            do app <- self_app_id;
            do report <- application_report env app;
            ret (state_eq_str (state report) "RUNNING")) st).
    change ((do client <- _get_client env cfg;
             do app <- self_app_id;
             do report <- application_report env app;
             ret (state_eq_str (state report) "RUNNING")) st)
      with (is_running_body tt).
    assert (Hrun : is_running_body = fun _ : unit =>
              (match rm_report env (clock st0) (app_id st) with
               | Ret rep => Ret (state_eq_str (state rep) "RUNNING")
               | Raise e => Raise e
               end, suspend [EvReport (app_id st)] st0)).
    { subst is_running_body. unfold bind. rewrite Hc.
      unfold self_app_id, application_report, ret. rewrite Hid.
      destruct (rm_report env (clock st0) (app_id st)); reflexivity. }
    apply (f_equal (fun f => f tt)) in Hrun. subst is_running_body.
    cbv beta in Hrun. rewrite Hrun. cbn [fst snd].
    assert (Htr' : trace (suspend [EvReport (app_id st)] st0)
                   = trace st ++ construction cfg st ++ [EvReport (app_id st)]).
    { simpl. rewrite Htr, <- app_assoc. reflexivity. }
    split; [exact Htr'|].
    split.
    { rewrite Htr', !count_events_app, (proj1 (construction_no_call cfg st)).
      change (count_events is_rm_call [EvReport (app_id st)]) with 1. lia. }
    split; [exact Hid|]. split; [exact Hfs|].
    split.
    + intros rep Hrep. rewrite Hrep. eexists. split; [reflexivity|].
      unfold state_eq_str. destruct rep as [[]]; simpl; split; congruence.
    + intros e Hrep. rewrite Hrep. reflexivity.
Qed.

Lemma is_running_spec_witness :
  is_running Scenario.env_ready Scenario.cfg Scenario.fresh
  = (Ret false, Scenario.fresh) /\
  app_id (is_running Scenario.env_ready Scenario.cfg Scenario.submitted).2
  = Scenario.app.
Proof.
  split.
  - apply (proj1 (is_running_spec Scenario.env_ready Scenario.cfg Scenario.fresh)).
    reflexivity.
  - destruct (proj2 (is_running_spec Scenario.env_ready Scenario.cfg
                       Scenario.submitted))
      as (c & st0 & _ & _ & _ & Hid & _).
    + discriminate.
    + exact Hid.
Defined.

(** C9: without a recorded id [stop] does nothing; with one it makes
    exactly one call on the resource manager, the kill request for that
    id, and no report query before it; when the kill request does not
    raise, [stop] returns normally, and so does a second [stop], which
    sends a second kill request. *)
Theorem stop_spec env cfg st :
  (app_id st = "" -> stop env cfg st = (Ret tt, st)) /\
  (app_id st <> "" ->
   let once := stop env cfg st in
   let twice := stop env cfg once.2 in
   trace once.2 = trace st ++ construction cfg st ++ [EvKill (app_id st)] /\
   count_events is_rm_call (trace once.2)
     = S (count_events is_rm_call (trace st)) /\
   count_events is_report (trace once.2) = count_events is_report (trace st) /\
   app_id once.2 = app_id st /\
   trace twice.2
     = trace st ++ construction cfg st ++ [EvKill (app_id st); EvKill (app_id st)] /\
   ((forall t a, rm_kill env t a = Ret tt) ->
    once.1 = Ret tt /\ twice.1 = Ret tt)).
Proof.
  split.
  - intros H. unfold stop. rewrite H. reflexivity.
  - intros H.
    assert (Hstep : forall s, app_id s <> "" ->
      exists c s0, _get_client env cfg s = (Ret c, s0) /\
        clients s0 !! (principal cfg, keytab cfg) = Some c /\
        stop env cfg s = (rm_kill env (clock s0) (app_id s),
                          suspend [EvKill (app_id s)] s0) /\
        trace s0 = trace s ++ construction cfg s /\ app_id s0 = app_id s).
    { intros s Hs.
      destruct (get_client_total env cfg s) as (c & s0 & Hc & Hcl & Htr & Hid & _).
      exists c, s0. repeat split; auto.
      unfold stop. destruct (String.eqb_spec (app_id s) ""); [contradiction|].
      unfold bind. rewrite Hc. unfold self_app_id, kill_application.
      rewrite Hid. reflexivity. }
    destruct (Hstep st H) as (c & st0 & Hc & Hcl & Hstop & Htr & Hid).
    intros once twice. subst twice once. rewrite Hstop. cbn [fst snd].
    assert (H1 : app_id (suspend [EvKill (app_id st)] st0) <> "")
      by (simpl; congruence).
    destruct (Hstep _ H1) as (c' & st0' & Hc' & _ & Hstop' & Htr' & Hid').
    rewrite Hstop'. cbn [fst snd].
    rewrite (construction_cached cfg _ c) in Htr' by exact Hcl.
    rewrite app_nil_r in Htr'. simpl in Htr', Hid'.
    pose proof (construction_no_call cfg st) as (Hno & Hshape).
    repeat split.
    + simpl. rewrite Htr, <- app_assoc. reflexivity.
    + simpl. rewrite Htr, !count_events_app, Hno.
      change (count_events is_rm_call [EvKill (app_id st)]) with 1. lia.
    + simpl. rewrite Htr, !count_events_app.
      change (count_events is_report [EvKill (app_id st)]) with 0.
      destruct Hshape as [-> | ->]; [change (count_events is_report []) with 0|
        change (count_events is_report [EvNewClient (principal cfg, keytab cfg) (next_object st)]) with 0];
        lia.
    + simpl. exact Hid.
    + simpl. rewrite Htr', Htr, Hid, <- !app_assoc. reflexivity.
    + apply H0.
    + apply H0.
Qed.

Lemma stop_spec_witness :
  (stop Scenario.env_ready Scenario.cfg Scenario.submitted).1 = Ret tt /\
  count_events is_kill
    (trace (stop Scenario.env_ready Scenario.cfg
              (stop Scenario.env_ready Scenario.cfg Scenario.submitted).2).2) = 2.
Proof.
  destruct (proj2 (stop_spec Scenario.env_ready Scenario.cfg Scenario.submitted))
    as (_ & _ & _ & _ & Htr & Hret).
  - discriminate.
  - split.
    + apply Hret. intros t a. reflexivity.
    + rewrite Htr. vm_compute. reflexivity.
Defined.

(** ** The launch commands *)

Lemma scheduler_command_list cfg args :
  get_scheduler_args cfg = PList args ->
  scheduler_command cfg
  = Raise (TypeError "can only concatenate str (not list) to str").
Proof. intros H. unfold scheduler_command. rewrite H. reflexivity. Qed.

Lemma worker_command_list cfg args :
  get_worker_args cfg = PList args ->
  worker_command cfg
  = Raise (TypeError "can only concatenate str (not list) to str").
Proof. intros H. unfold worker_command. rewrite H. reflexivity. Qed.

Lemma scheduler_command_str cfg args :
  get_scheduler_args cfg = PStr args ->
  scheduler_command cfg
  = Ret (String.concat " " (chars (scheduler_cmd cfg +:+ args))).
Proof. intros H. unfold scheduler_command. rewrite H. reflexivity. Qed.

(** With argument lists nothing is ever submitted: [start] raises in the
    [with] block and records no id. *)
Lemma start_raises_on_argument_list env cfg args fuel st :
  get_scheduler_args cfg = PList args ->
  exists e st',
    start env cfg fuel st = Some (Raise e, st') /\ app_id st' = app_id st /\
    count_events is_rm_call (trace st') = count_events is_rm_call (trace st).
Proof.
  intros Hargs.
  pose proof (start_submission_cases env cfg st) as Hc.
  unfold start.
  destruct (start_submission env cfg st) as [[[]|e] st1] eqn:Hs.
  - exfalso. revert Hs. unfold start_submission, bind at 1.
    destruct (get_client_total env cfg st) as (c & st0 & Hg & _).
    rewrite Hg. intros Hs.
    pose proof (temp_write_credentials_result env cfg (with_block env cfg) st0) as Hr.
    rewrite Hs in Hr. simpl in Hr.
    destruct (write_credentials env cfg st0) as [[[]|e] sw]; [|discriminate].
    unfold with_block, bind in Hr.
    pose proof (build_specification_cases env cfg (cert_path cfg) (key_path cfg) sw) as Hb.
    rewrite (scheduler_command_list cfg args Hargs) in Hb. rewrite Hb in Hr.
    discriminate.
  - exists e, st1. split; [reflexivity|].
    destruct Hc as (Hid & [(spec & t & Hsub & Htr)|Htr]).
    + exfalso. revert Hs. unfold start_submission, bind at 1.
      destruct (get_client_total env cfg st) as (c & st0 & Hg & _ & Htr0 & _).
      rewrite Hg. unfold temp_write_credentials.
      match goal with |- context [try_finally ?body ?f st0] =>
        destruct (try_finally_unlink body [cert_path cfg; key_path cfg] st0)
          as (st' & Hrun & _ & Hfr); rewrite Hrun; clear Hrun end.
      intros Heq. injection Heq as _ ->.
      destruct Hfr as (_ & _ & _ & _ & _ & Htr1). revert Htr1. unfold bind.
      pose proof (write_each_frame env credential_flags
        [(cert_path cfg, tls_cert cfg); (key_path cfg, tls_key cfg)] st0) as Hw.
      fold (write_credentials env cfg) in Hw.
      destruct (write_credentials env cfg st0) as [[[]|e'] sw];
        simpl in Hw; destruct Hw as (_ & _ & _ & _ & _ & Htrw).
      * unfold with_block, bind.
        pose proof (build_specification_cases env cfg (cert_path cfg) (key_path cfg) sw) as Hb.
        rewrite (scheduler_command_list cfg args Hargs) in Hb. rewrite Hb.
        simpl. intros Htr1. rewrite Htr1, Htrw, Htr0 in Htr.
        unfold submission_trace in Htr.
        apply app_inv_head in Htr.
        rewrite <- (app_nil_r (construction cfg st)) in Htr at 1.
        apply app_inv_head in Htr. discriminate.
      * simpl. intros Htr1. rewrite Htr1, Htrw, Htr0 in Htr.
        unfold submission_trace in Htr.
        apply app_inv_head in Htr.
        rewrite <- (app_nil_r (construction cfg st)) in Htr at 1.
        apply app_inv_head in Htr. discriminate.
    + split; [exact Hid|]. rewrite Htr. unfold submission_trace.
      rewrite !count_events_app, (proj1 (construction_no_call cfg st)).
      change (count_events is_rm_call []) with 0. lia.
Qed.

(** C6, as the code runs: with the getters returning argument lists the
    launch commands do not evaluate ([str + list] is a [TypeError]), so
    no launch script and no specification is built; the script the
    documentation describes is never produced. *)
Theorem launch_script_raises_on_argument_list :
  scheduler_command Scenario.cfg_lists
    = Raise (TypeError "can only concatenate str (not list) to str") /\
  worker_command Scenario.cfg_lists
    = Raise (TypeError "can only concatenate str (not list) to str") /\
  (forall env cert key st,
      _build_specification env Scenario.cfg_lists cert key st
      = (Raise (TypeError "can only concatenate str (not list) to str"), st)) /\
  documented_script (scheduler_setup Scenario.cfg_lists)
    (scheduler_cmd Scenario.cfg_lists) ["--port"; "0"]
    = "source env/bin/activate" +:+ newline +:+ "dask-gateway-scheduler --port 0".
Proof.
  split; [reflexivity|]. split; [reflexivity|]. split; [|reflexivity].
  intros env cert key st.
  pose proof (build_specification_cases env Scenario.cfg_lists cert key st) as H.
  exact H.
Qed.

(** Even when the getters return strings the command is not the
    documented one: [join] runs over the characters. *)
Example launch_script_of_string_arguments :
  scheduler_command Scenario.cfg
  = Ret "d a s k - g a t e w a y - s c h e d u l e r".
Proof. reflexivity. Qed.

(** ** Determinism of the built specification *)

(** C7, amended: two runs of [_build_specification] on the same
    configuration and paths both raise the same error or both return,
    and then the two specifications agree on everything except the
    master's security credential, which each run draws afresh. *)
Theorem build_specification_deterministic_up_to_security
    env cfg cert key st1 st2 :
  match (_build_specification env cfg cert key st1).1,
        (_build_specification env cfg cert key st2).1 with
  | Ret s1, Ret s2 =>
    erase_security s1 = erase_security s2 /\
    m_security (spec_master s1) = Credentials (entropy env (draws st1)) /\
    m_security (spec_master s2) = Credentials (entropy env (draws st2))
  | Raise e1, Raise e2 => e1 = e2
  | _, _ => False
  end.
Proof.
  pose proof (build_specification_cases env cfg cert key st1) as H1.
  pose proof (build_specification_cases env cfg cert key st2) as H2.
  destruct (scheduler_command cfg) as [s|e];
    [destruct (worker_command cfg) as [w|e]|];
    rewrite H1, H2; simpl; auto.
Qed.

(** C7 as stated fails: two consecutive runs on the same inputs return
    different specifications. *)
Lemma build_specification_embeds_fresh_credentials :
  exists s1 st1 s2 st2,
    _build_specification Scenario.env_A Scenario.cfg "/tmp/c1.crt" "/tmp/c1.pem"
      Scenario.fresh = (Ret s1, st1) /\
    _build_specification Scenario.env_A Scenario.cfg "/tmp/c1.crt" "/tmp/c1.pem"
      st1 = (Ret s2, st2) /\
    s1 <> s2.
Proof.
  pose proof (build_specification_cases Scenario.env_A Scenario.cfg
                "/tmp/c1.crt" "/tmp/c1.pem" Scenario.fresh) as H1.
  pose proof (build_specification_cases Scenario.env_A Scenario.cfg
                "/tmp/c1.crt" "/tmp/c1.pem"
                (set_draws 1 Scenario.fresh)) as H2.
  change (scheduler_command Scenario.cfg)
    with (Ret (A:=string) "d a s k - g a t e w a y - s c h e d u l e r") in H1, H2.
  change (worker_command Scenario.cfg)
    with (Ret (A:=string) "d a s k - g a t e w a y - w o r k e r") in H1, H2.
  cbv beta iota in H1, H2.
  eexists _, _, _, _. split; [exact H1|]. split; [exact H2|].
  intros Heq.
  apply (f_equal (fun s => m_security (spec_master s))) in Heq.
  simpl in Heq. discriminate Heq.
Qed.

(** ** Persisted state and the scenarios of the specification *)

(** What [get_state] saves, [load_state] reads back, provided the base
    class does not use the key itself. *)
Lemma load_get_state base st st0 :
  base !! "app_id" = None ->
  app_id (load_state (get_state base st) st0) = app_id st.
Proof.
  intros Hbase. unfold load_state, get_state, truthy. simpl.
  destruct (String.eqb_spec (app_id st) "") as [->|Hne]; simpl.
  - rewrite Hbase. reflexivity.
  - rewrite lookup_insert_eq. reflexivity.
Qed.

(** Scenario B: ACCEPTED, then FAILED. *)
Example scenario_B :
  exists st',
    start Scenario.env_B Scenario.cfg 2 Scenario.fresh =
      Some (Raise (Exception (failure_message Scenario.app)), st') /\
    app_id st' = Scenario.app /\ fs st' = ∅.
Proof.
  exists (Scenario.state_after (start Scenario.env_B Scenario.cfg 2 Scenario.fresh)).
  split; [vm_compute; reflexivity|].
  split; vm_compute; reflexivity.
Qed.

(** Scenario C: the submission is rejected. *)
Example scenario_C :
  exists st',
    start Scenario.env_C Scenario.cfg 0 Scenario.fresh =
      Some (Raise (ClientError "queue is over its quota"), st') /\
    app_id st' = "" /\ fs st' = ∅.
Proof.
  exists (Scenario.state_after (start Scenario.env_C Scenario.cfg 0 Scenario.fresh)).
  split; [vm_compute; reflexivity|].
  split; vm_compute; reflexivity.
Qed.

(** Scenario D: two calls of [stop] in a row. *)
Example scenario_D :
  (stop Scenario.env_ready Scenario.cfg Scenario.submitted).1 = Ret tt /\
  (stop Scenario.env_ready Scenario.cfg
     (stop Scenario.env_ready Scenario.cfg Scenario.submitted).2).1 = Ret tt /\
  trace (stop Scenario.env_ready Scenario.cfg
           (stop Scenario.env_ready Scenario.cfg Scenario.submitted).2).2
  = [EvNewClient (None, None) 0; EvKill Scenario.app; EvKill Scenario.app].
Proof.
  split; [vm_compute; reflexivity|].
  split; vm_compute; reflexivity.
Qed.

(** With argument lists, as the base class is said to supply them,
    [start] fails before anything is submitted. *)
Example start_with_argument_lists :
  exists st',
    start Scenario.env_A Scenario.cfg_lists 5 Scenario.fresh =
      Some (Raise (TypeError "can only concatenate str (not list) to str"), st') /\
    app_id st' = "" /\ fs st' = ∅ /\
    trace st' = [EvNewClient (None, None) 0].
Proof.
  exists (Scenario.state_after
            (start Scenario.env_A Scenario.cfg_lists 5 Scenario.fresh)).
  split; [vm_compute; reflexivity|].
  split; [vm_compute; reflexivity|].
  split; vm_compute; reflexivity.
Qed.

(** A stale file at the certificate path: the scope raises without
    writing to it, and its cleanup then removes it. *)
Example stale_certificate_file :
  exists st',
    start Scenario.env_A Scenario.cfg 5 Scenario.stale =
      Some (Raise (FileExistsError "/tmp/c1.crt"), st') /\
    app_id st' = "" /\ fs st' = ∅.
Proof.
  exists (Scenario.state_after (start Scenario.env_A Scenario.cfg 5 Scenario.stale)).
  split; [vm_compute; reflexivity|].
  split; vm_compute; reflexivity.
Qed.

(** * Further properties of the controller *)

(** ** Persisted state *)

(** X1: what [get_state] saves is what [load_state] reads back: when the
    base class does not use the key ["app_id"] itself, saving and loading
    restores the recorded id, empty or not; [get_state] changes no other
    key of the base state, and it adds the key only for a non-empty id. *)
Theorem persisted_app_id_round_trip base st st0 :
  base !! "app_id" = None ->
  app_id (load_state (get_state base st) st0) = app_id st /\
  (forall k, k <> "app_id" -> get_state base st !! k = base !! k) /\
  (is_Some (get_state base st !! "app_id") <-> app_id st <> "").
Proof.
  intros Hbase. split; [apply load_get_state; exact Hbase|].
  unfold get_state, truthy.
  destruct (String.eqb_spec (app_id st) "") as [Heq|Hne]; simpl.
  - split; [reflexivity|]. rewrite Hbase. split.
    + intros [x Hx]. discriminate.
    + intros H. contradiction.
  - split.
    + intros k Hk. apply lookup_insert_ne. congruence.
    + rewrite lookup_insert_eq. split; eauto.
Qed.

Lemma persisted_app_id_round_trip_witness :
  app_id (load_state (get_state ∅ Scenario.submitted) Scenario.fresh)
  = Scenario.app.
Proof.
  refine (proj1 (persisted_app_id_round_trip ∅ Scenario.submitted
                   Scenario.fresh _)).
  apply lookup_empty.
Defined.

(** X2: a controller restored from a saved state without the key
    ["app_id"] counts as never submitted: [is_running] answers [False]
    and [stop] returns, both without any call and without any change. *)
Theorem restored_without_app_id env cfg saved st :
  saved !! "app_id" = None ->
  app_id (load_state saved st) = "" /\
  is_running env cfg (load_state saved st) = (Ret false, load_state saved st) /\
  stop env cfg (load_state saved st) = (Ret tt, load_state saved st).
Proof.
  intros H.
  assert (Hid : app_id (load_state saved st) = "").
  { unfold load_state. rewrite H. reflexivity. }
  split; [exact Hid|]. unfold is_running, stop. rewrite Hid. auto.
Qed.

Lemma restored_without_app_id_witness :
  stop Scenario.env_ready Scenario.cfg (load_state ∅ Scenario.submitted)
  = (Ret tt, load_state ∅ Scenario.submitted).
Proof.
  refine (proj2 (proj2 (restored_without_app_id Scenario.env_ready Scenario.cfg
                          ∅ Scenario.submitted _))).
  apply lookup_empty.
Defined.

(** ** Strings and paths *)

Lemma string_length_append (a b : string) :
  String.length (a +:+ b) = String.length a + String.length b.
Proof.
  induction a as [|c a IH]; [reflexivity|].
  change (S (String.length (a +:+ b)) = S (String.length a + String.length b)).
  rewrite IH. reflexivity.
Qed.

(** Two strings split at the same distance from the end have equal
    parts. *)
Lemma append_inj_len (s1 s2 t1 t2 : string) :
  String.length t1 = String.length t2 ->
  s1 +:+ t1 = s2 +:+ t2 -> s1 = s2 /\ t1 = t2.
Proof.
  intros Hlen. revert s2.
  induction s1 as [|c s1 IH]; intros [|d s2] H.
  - auto.
  - exfalso. apply (f_equal String.length) in H.
    change (String.length t1 = S (String.length (s2 +:+ t2))) in H.
    rewrite string_length_append in H. lia.
  - exfalso. apply (f_equal String.length) in H.
    change (S (String.length (s1 +:+ t1)) = String.length t2) in H.
    rewrite string_length_append in H. lia.
  - change (String c (s1 +:+ t1) = String d (s2 +:+ t2)) in H.
    injection H as -> H. destruct (IH _ H) as [-> ->]. auto.
Qed.

(** [os.path.join] puts the same thing in front of every relative
    name. *)
Lemma os_path_join_relative a b :
  String.prefix "/" b = false ->
  os_path_join a b =
  (if negb (truthy a) || endswith_sep a then a else a +:+ "/") +:+ b.
Proof.
  intros H. unfold os_path_join. rewrite H.
  destruct (negb (truthy a) || endswith_sep a); [reflexivity|].
  induction a as [|c a IH]; [reflexivity|].
  change (String c (a +:+ "/" +:+ b) = String c ((a +:+ "/") +:+ b)).
  f_equal. exact IH.
Qed.

Lemma append_assoc (a b c : string) : (a +:+ b) +:+ c = a +:+ b +:+ c.
Proof.
  induction a as [|x a IH]; [reflexivity|].
  change (String x ((a +:+ b) +:+ c) = String x (a +:+ b +:+ c)).
  f_equal. exact IH.
Qed.

(** X3: where the credential files go.  The two paths of one cluster
    differ.  A cluster id that starts with a slash makes [os.path.join]
    drop the temporary directory, so the files are written at
    [cluster_id + ".crt"] and [cluster_id + ".pem"]; otherwise both paths
    start with the temporary directory. *)
Theorem credential_paths cfg :
  cert_path cfg <> key_path cfg /\
  (String.prefix "/" (cluster_id cfg) = true ->
   cert_path cfg = cluster_id cfg +:+ ".crt" /\
   key_path cfg = cluster_id cfg +:+ ".pem") /\
  (String.prefix "/" (cluster_id cfg) = false ->
   String.prefix (temp_dir cfg) (cert_path cfg) = true /\
   String.prefix (temp_dir cfg) (key_path cfg) = true).
Proof.
  split; [apply cert_key_distinct|]. unfold cert_path, key_path. split.
  - intros H. unfold os_path_join. rewrite H. auto.
  - intros H. rewrite (os_path_join_relative _ _ H).
    destruct (negb (truthy (temp_dir cfg)) || endswith_sep (temp_dir cfg));
      rewrite !append_assoc; split; apply prefix_append.
Qed.

Lemma credential_paths_witness :
  String.prefix "/tmp" (cert_path Scenario.cfg) = true.
Proof.
  refine (proj1 (proj2 (proj2 (credential_paths Scenario.cfg)) _)).
  reflexivity.
Defined.

Lemma slash_free_append (a b : string) :
  slash_free (a +:+ b) = slash_free a && slash_free b.
Proof.
  induction a as [|c a IH]; [reflexivity|].
  change (negb (Ascii.eqb c "/") && slash_free (a +:+ b)
          = negb (Ascii.eqb c "/") && slash_free a && slash_free b).
  rewrite IH. apply andb_assoc.
Qed.

Lemma slash_free_relative (s : string) :
  slash_free s = true -> String.prefix "/" s = false.
Proof.
  destruct s as [|c s]; [reflexivity|]. intros H.
  cbn [slash_free] in H. apply andb_true_iff in H. destruct H as [Hc _].
  apply negb_true_iff, Ascii.eqb_neq in Hc.
  cbn -[Ascii.ascii_dec].
  destruct (Ascii.ascii_dec "/" c) as [Heq|_]; [|reflexivity].
  exfalso. apply Hc. symmetry. exact Heq.
Qed.

Lemma get_last (a : string) (c : Ascii.ascii) :
  String.get (String.length a) (a +:+ String c EmptyString) = Some c.
Proof. induction a as [|x a IH]; [reflexivity|exact IH]. Qed.

(** What [os.path.join] puts in front is empty or ends with a slash. *)
Lemma join_front_is_directory (a : string) :
  join_front a = "" \/ endswith_sep (join_front a) = true.
Proof.
  unfold join_front.
  destruct (negb (truthy a)) eqn:Ht; simpl.
  - left. unfold truthy in Ht. apply negb_true_iff, negb_false_iff in Ht.
    apply String.eqb_eq in Ht. exact Ht.
  - destruct (endswith_sep a) eqn:He; [right; exact He|]. right.
    unfold endswith_sep. rewrite string_length_append. simpl.
    replace (String.length a + 1 - 1) with (String.length a) by lia.
    rewrite get_last. reflexivity.
Qed.

(** X4: the credential files of two clusters are different entries of
    one directory.  With the same temporary directory and two different
    cluster ids without a slash, every credential path is one common
    directory prefix (empty, or ending with a slash) followed by a file
    name without a slash, [cluster_id + ".crt"] or [cluster_id + ".pem"],
    and the two names of one cluster differ from both names of the
    other.  Ids with a slash are left out: the paths are not normalised,
    so two such ids can reach the same file through different paths. *)
Theorem credential_paths_distinct_entries cfg1 cfg2 :
  temp_dir cfg1 = temp_dir cfg2 ->
  slash_free (cluster_id cfg1) = true ->
  slash_free (cluster_id cfg2) = true ->
  cluster_id cfg1 <> cluster_id cfg2 ->
  exists dir,
    (dir = "" \/ endswith_sep dir = true) /\
    cert_path cfg1 = dir +:+ (cluster_id cfg1 +:+ ".crt") /\
    key_path cfg1 = dir +:+ (cluster_id cfg1 +:+ ".pem") /\
    cert_path cfg2 = dir +:+ (cluster_id cfg2 +:+ ".crt") /\
    key_path cfg2 = dir +:+ (cluster_id cfg2 +:+ ".pem") /\
    slash_free (cluster_id cfg1 +:+ ".crt") = true /\
    slash_free (cluster_id cfg1 +:+ ".pem") = true /\
    slash_free (cluster_id cfg2 +:+ ".crt") = true /\
    slash_free (cluster_id cfg2 +:+ ".pem") = true /\
    cluster_id cfg1 +:+ ".crt" <> cluster_id cfg2 +:+ ".crt" /\
    cluster_id cfg1 +:+ ".crt" <> cluster_id cfg2 +:+ ".pem" /\
    cluster_id cfg1 +:+ ".pem" <> cluster_id cfg2 +:+ ".crt" /\
    cluster_id cfg1 +:+ ".pem" <> cluster_id cfg2 +:+ ".pem" /\
    cert_path cfg1 <> cert_path cfg2 /\ cert_path cfg1 <> key_path cfg2 /\
    key_path cfg1 <> cert_path cfg2 /\ key_path cfg1 <> key_path cfg2.
Proof.
  intros Hdir H1 H2 Hne.
  pose proof (slash_free_relative _ H1) as R1.
  pose proof (slash_free_relative _ H2) as R2.
  exists (join_front (temp_dir cfg2)).
  split; [apply join_front_is_directory|].
  unfold cert_path, key_path.
  rewrite (os_path_join_relative _ _ R1), (os_path_join_relative _ _ R2), Hdir.
  fold (join_front (temp_dir cfg2)). rewrite !append_assoc.
  do 4 (split; [reflexivity|]).
  do 4 (split; [rewrite slash_free_append, ?H1, ?H2; reflexivity|]).
  assert (Hcut : forall x y, String.length x = String.length y ->
            cluster_id cfg1 +:+ x = cluster_id cfg2 +:+ y -> False).
  { intros x y Hlen H.
    apply (append_inj_len _ _ _ _ Hlen) in H. destruct H as [H _].
    contradiction. }
  do 4 (split; [intros H; (eapply Hcut; [|exact H]; reflexivity)|]).
  split; [|split; [|split]]; intros H; apply append_inj_l in H;
    (eapply Hcut; [|exact H]; reflexivity).
Qed.

Lemma credential_paths_distinct_entries_witness :
  exists dir,
    cert_path Scenario.cfg = dir +:+ "c1.crt" /\
    cert_path Scenario.kerberos_cfg = dir +:+ "c2.crt".
Proof.
  destruct (credential_paths_distinct_entries Scenario.cfg Scenario.kerberos_cfg)
    as (dir & _ & Hc1 & _ & Hc2 & _);
    [reflexivity|reflexivity|reflexivity|discriminate|].
  exists dir. split; [exact Hc1|exact Hc2].
Defined.

(** ** What [_build_specification] puts into the specification *)

(** X5: a built specification always ships the certificate and the key
    under the local names [dask.crt] and [dask.pem], in place of any
    entry of [localize_files] with one of these names; every other entry
    of [localize_files] is passed on, a dict through [File.from_dict];
    the only service is [dask.worker], declared with 0 instances and
    [max_restarts = -1], with the files and the environment of the
    master; the resources carry the configured cores and the byte counts
    formatted as ['%d b']; building changes nothing but the count of
    credentials drawn. *)
Theorem built_specification_contents env cfg cert key st spec st' :
  _build_specification env cfg cert key st = (Ret spec, st') ->
  let files := m_files (spec_master spec) in
  files !! "dask.crt" = Some (ResPath cert) /\
  files !! "dask.pem" = Some (ResPath key) /\
  (forall k, k <> "dask.crt" -> k <> "dask.pem" ->
             files !! k = localized <$> (localize_files cfg !! k)) /\
  (exists worker,
      spec_services spec = {[ "dask.worker" := worker ]} /\
      s_instances worker = 0%Z /\ s_max_restarts worker = (-1)%Z /\
      s_files worker = files /\
      s_env worker = get_env cfg /\
      s_resources worker
      = {| memory := format_d (worker_memory cfg) +:+ " b";
           vcores := worker_cores cfg |}) /\
  m_env (spec_master spec) = get_env cfg /\
  m_resources (spec_master spec)
  = {| memory := format_d (scheduler_memory cfg) +:+ " b";
       vcores := scheduler_cores cfg |} /\
  st' = set_draws (S (draws st)) st.
Proof.
  intros H files. subst files.
  pose proof (build_specification_cases env cfg cert key st) as Hc.
  destruct (scheduler_command cfg) as [s|e];
    [destruct (worker_command cfg) as [w|e]|];
    rewrite Hc in H; try discriminate H.
  injection H as <- <-. cbn [assemble spec_master spec_services m_files m_env
                              m_resources].
  split; [rewrite lookup_insert_ne by discriminate; apply lookup_insert_eq|].
  split; [apply lookup_insert_eq|].
  split.
  { intros k H1 H2.
    rewrite !lookup_insert_ne by congruence. apply lookup_fmap. }
  split; [|auto].
  eexists. split; [reflexivity|]. cbn. auto 10.
Qed.

Lemma built_specification_contents_witness :
  m_files (spec_master
    (assemble Scenario.cfg "/tmp/c1.crt" "/tmp/c1.pem" (Credentials 0)
       "d a s k - g a t e w a y - s c h e d u l e r"
       "d a s k - g a t e w a y - w o r k e r")) !! "dask.crt"
  = Some (ResPath "/tmp/c1.crt").
Proof.
  refine (proj1 (built_specification_contents Scenario.env_A Scenario.cfg
                   "/tmp/c1.crt" "/tmp/c1.pem" Scenario.fresh _
                   (set_draws 1 Scenario.fresh) _)).
  exact (build_specification_cases Scenario.env_A Scenario.cfg
           "/tmp/c1.crt" "/tmp/c1.pem" Scenario.fresh).
Defined.

Lemma to_int_not_nil (n : Z) :
  Z.to_int n <> Decimal.Pos Decimal.Nil /\ Z.to_int n <> Decimal.Neg Decimal.Nil.
Proof.
  destruct n as [|p|p]; simpl; split; try discriminate; intros H;
    injection H as H; exact (Unsigned.to_uint_nonnil p H).
Qed.

(** X6: the memory request loses nothing: the text that ['%d' % n]
    produces reads back as [n], so two byte counts with the same request
    string ['%d b'] are equal. *)
Theorem memory_request_round_trip (n : Z) :
  option_map Z.of_int (NilZero.int_of_string (format_d n)) = Some n /\
  (forall m, format_d n +:+ " b" = format_d m +:+ " b" -> n = m).
Proof.
  assert (Hread : forall z,
            option_map Z.of_int (NilZero.int_of_string (format_d z)) = Some z).
  { intros z. unfold format_d.
    destruct (to_int_not_nil z) as [H1 H2].
    rewrite (NilZero.isi _ H1 H2). simpl. f_equal. apply DecimalZ.of_to. }
  split; [apply Hread|].
  intros m H. apply append_inj_len in H; [|reflexivity].
  destruct H as [H _].
  pose proof (Hread n) as Hn. rewrite H, Hread in Hn. congruence.
Qed.

Lemma memory_request_round_trip_witness :
  (2147483648 = 2 * 1073741824)%Z.
Proof.
  refine (proj2 (memory_request_round_trip 2147483648) (2 * 1073741824)%Z _).
  reflexivity.
Defined.

(** ** The client pool under the operations of the controller *)

Lemma pool_ok_ext st st' :
  clients st' = clients st -> next_object st' = next_object st ->
  pool_ok st -> pool_ok st'.
Proof. unfold pool_ok. intros -> ->. auto. Qed.

Lemma pool_grows_ext cfg st st1 st' :
  clients st' = clients st1 -> next_object st' = next_object st1 ->
  pool_grows cfg st st1 -> pool_grows cfg st st'.
Proof.
  unfold pool_grows. intros Hc Hn (Hok & Hmono & Hother).
  rewrite Hc. split; [eapply pool_ok_ext; eauto|]. auto.
Qed.

Lemma pool_grows_refl cfg st : pool_ok st -> pool_grows cfg st st.
Proof. unfold pool_grows. auto. Qed.

Lemma get_client_grows env cfg st :
  pool_ok st ->
  pool_grows cfg st (_get_client env cfg st).2 /\
  is_Some (clients (_get_client env cfg st).2 !! (principal cfg, keytab cfg)).
Proof.
  intros Hok.
  destruct (get_client_total env cfg st) as (c & st' & Hrun & Hc & _).
  destruct (get_client_spec _ _ _ _ _ Hok Hrun) as (Hok' & _ & Hmono & _).
  rewrite Hrun. simpl. split; [|eauto].
  split; [exact Hok'|]. split; [exact Hmono|].
  intros k Hk.
  destruct (clients st !! (principal cfg, keytab cfg)) as [c0|] eqn:E.
  - rewrite (get_client_hit _ _ _ _ E) in Hrun. injection Hrun as _ <-.
    reflexivity.
  - destruct (get_client_miss env cfg st E) as (c1 & st1 & Hrun1 & _ & Hcl & _).
    rewrite Hrun1 in Hrun. injection Hrun as _ <-.
    rewrite Hcl. apply lookup_insert_ne. congruence.
Qed.

Lemma with_block_pool env cfg cert key st :
  clients (with_block env cfg cert key st).2 = clients st /\
  next_object (with_block env cfg cert key st).2 = next_object st.
Proof.
  unfold with_block, bind.
  pose proof (build_specification_cases env cfg cert key st) as Hc.
  destruct (scheduler_command cfg) as [s|e];
    [destruct (worker_command cfg) as [w|e]|]; rewrite Hc; simpl; auto.
  unfold submit. destruct (rm_submit env _ _); simpl; auto.
Qed.

Lemma start_submission_pool env cfg st :
  clients (start_submission env cfg st).2 = clients (_get_client env cfg st).2 /\
  next_object (start_submission env cfg st).2
  = next_object (_get_client env cfg st).2.
Proof.
  destruct (get_client_total env cfg st) as (c & st0 & Hc & _).
  assert (Hsub : start_submission env cfg st
                 = temp_write_credentials env cfg (with_block env cfg) st0).
  { unfold start_submission, bind. rewrite Hc. reflexivity. }
  rewrite Hsub, Hc. simpl. unfold temp_write_credentials.
  match goal with |- context [try_finally ?body ?f st0] =>
    destruct (try_finally_unlink body [cert_path cfg; key_path cfg] st0)
      as (st' & Hrun & _ & Hfr); rewrite Hrun; clear Hrun;
    revert Hfr end.
  unfold bind.
  pose proof (write_each_frame env credential_flags
    [(cert_path cfg, tls_cert cfg); (key_path cfg, tls_key cfg)] st0) as Hw.
  fold (write_credentials env cfg) in Hw.
  destruct (write_credentials env cfg st0) as [[[]|e] st1];
    simpl in Hw; destruct Hw as (_ & Hc1 & Hn1 & _).
  - pose proof (with_block_pool env cfg (cert_path cfg) (key_path cfg) st1)
      as (Hc2 & Hn2).
    destruct (with_block env cfg (cert_path cfg) (key_path cfg) st1)
      as [r st2]; simpl in *.
    intros (_ & Hc3 & Hn3 & _). split; congruence.
  - simpl. intros (_ & Hc3 & Hn3 & _). split; congruence.
Qed.

(** ** Polling, event by event *)

Lemma quiet_refl st : quiet st st.
Proof.
  unfold quiet. repeat (split; [reflexivity|]).
  exists []. rewrite app_nil_r. simpl. split; [reflexivity|].
  split; [constructor|lia].
Qed.

Lemma quiet_trans a b c : quiet a b -> quiet b c -> quiet a c.
Proof.
  unfold quiet.
  intros (H1 & H2 & H3 & H4 & H5 & evs & H6 & H7 & H8)
         (K1 & K2 & K3 & K4 & K5 & evs' & K6 & K7 & K8).
  repeat (split; [congruence|]).
  exists (evs ++ evs'). rewrite K6, H6, <- app_assoc. split; [reflexivity|].
  split.
  - apply Forall_app. split; [exact H7|]. rewrite H2 in K7. exact K7.
  - rewrite K8, H8, length_app. lia.
Qed.

Lemma quiet_suspend ev st :
  poll_event (app_id st) ev -> quiet st (suspend [ev] st).
Proof.
  intros H. unfold quiet. simpl. repeat (split; [reflexivity|]).
  exists [ev]. split; [reflexivity|]. split; [|simpl; lia].
  constructor; [exact H|constructor].
Qed.

Lemma quiet_report st : quiet st (suspend [EvReport (app_id st)] st).
Proof. apply quiet_suspend. left. reflexivity. Qed.

Lemma quiet_sleep st : quiet st (suspend [EvSleep] st).
Proof. apply quiet_suspend. right. reflexivity. Qed.

Lemma wait_for_running_quiet env fuel : forall st r st',
  wait_for_running env fuel st = Some (r, st') -> quiet st st'.
Proof.
  induction fuel as [|fuel IH]; intros st r st' H; simpl in H; [discriminate|].
  unfold bind, self_app_id, application_report in H.
  destruct (rm_report env (clock st) (app_id st)) as [rep|e].
  - destruct (is_terminal _).
    + injection H as <- <-. apply quiet_report.
    + destruct (String.eqb _ _).
      * injection H as <- <-. apply quiet_report.
      * apply IH in H.
        eapply quiet_trans; [apply quiet_report|].
        eapply quiet_trans; [apply quiet_sleep|exact H].
  - injection H as <- <-. apply quiet_report.
Qed.

Lemma wait_for_address_quiet env fuel : forall st r st',
  wait_for_address env fuel st = Some (r, st') -> quiet st st'.
Proof.
  induction fuel as [|fuel IH]; intros st r st' H; simpl in H;
    destruct (truthy (getattr_scheduler_address env st)); simpl in H;
    try discriminate; try (injection H as <- <-; apply quiet_refl).
  unfold bind, sleep, self_app_id, application_report in H.
  assert (Hstep : quiet st (suspend [EvReport (app_id (suspend [EvSleep] st))]
                              (suspend [EvSleep] st))).
  { eapply quiet_trans; [apply quiet_sleep|apply quiet_report]. }
  destruct (rm_report env _ _) as [rep|e].
  - destruct (is_terminal _).
    + injection H as <- <-. exact Hstep.
    + apply IH in H. eapply quiet_trans; [exact Hstep|exact H].
  - injection H as <- <-. exact Hstep.
Qed.

(** After its submission phase [start] only polls. *)
Lemma start_quiet_after_submission env cfg fuel st r st' :
  start env cfg fuel st = Some (r, st') ->
  quiet (start_submission env cfg st).2 st'.
Proof.
  intros H. apply start_inv in H.
  destruct H as [(e & _ & Hs)|(st1 & Hs & H)]; rewrite Hs; simpl;
    [apply quiet_refl|].
  destruct H as [(e & _ & [Hr|(st2 & Hr & Ha)])|(st2 & Hr & Ha & _)].
  - eapply wait_for_running_quiet; eauto.
  - eapply quiet_trans; [eapply wait_for_running_quiet|eapply wait_for_address_quiet];
      eauto.
  - eapply quiet_trans; [eapply wait_for_running_quiet|eapply wait_for_address_quiet];
      eauto.
Qed.

(** What [is_running] and [stop] do once an id is recorded. *)
Lemma is_running_run env cfg st :
  app_id st <> "" ->
  exists c st0,
    _get_client env cfg st = (Ret c, st0) /\
    is_running env cfg st =
    (match rm_report env (clock st0) (app_id st) with
     | Ret rep => Ret (state_eq_str (state rep) "RUNNING")
     | Raise e => Raise e
     end, suspend [EvReport (app_id st)] st0).
Proof.
  intros Hs.
  destruct (get_client_total env cfg st) as (c & st0 & Hc & _ & _ & Hid & _).
  exists c, st0. split; [exact Hc|].
  unfold is_running. destruct (String.eqb_spec (app_id st) ""); [contradiction|].
  unfold bind. rewrite Hc. unfold self_app_id, application_report, ret.
  rewrite Hid. destruct (rm_report env (clock st0) (app_id st)); reflexivity.
Qed.

Lemma stop_run env cfg st :
  app_id st <> "" ->
  exists c st0,
    _get_client env cfg st = (Ret c, st0) /\
    stop env cfg st =
    (rm_kill env (clock st0) (app_id st), suspend [EvKill (app_id st)] st0).
Proof.
  intros Hs.
  destruct (get_client_total env cfg st) as (c & st0 & Hc & _ & _ & Hid & _).
  exists c, st0. split; [exact Hc|].
  unfold stop. destruct (String.eqb_spec (app_id st) ""); [contradiction|].
  unfold bind. rewrite Hc. unfold self_app_id, kill_application.
  rewrite Hid. reflexivity.
Qed.

(** X7: an operation of the controller that runs from its start to its
    end without another acquisition in between evicts and replaces no
    cached client: after [start] (however it ends), [is_running] or
    [stop] the pool is still well formed, every client cached before is
    cached under the same identity, and the entries of other identities
    are untouched; after [start] the controller's own identity has a
    client.  (Acquisitions that interleave at the [await] of
    [_get_client] are treated separately below.) *)
Theorem pool_never_evicts env cfg fuel st :
  pool_ok st ->
  (forall r st', start env cfg fuel st = Some (r, st') ->
     pool_grows cfg st st' /\
     is_Some (clients st' !! (principal cfg, keytab cfg))) /\
  pool_grows cfg st (is_running env cfg st).2 /\
  pool_grows cfg st (stop env cfg st).2.
Proof.
  intros Hok. destruct (get_client_grows env cfg st Hok) as (Hg & Hsome).
  split; [|split].
  - intros r st' H.
    pose proof (start_quiet_after_submission _ _ _ _ _ _ H)
      as (_ & _ & Hc & Hn & _).
    destruct (start_submission_pool env cfg st) as (Hc' & Hn').
    split.
    + eapply pool_grows_ext; [| |exact Hg]; congruence.
    + rewrite Hc, Hc'. exact Hsome.
  - destruct (String.eqb_spec (app_id st) "") as [He|Hne].
    + unfold is_running. rewrite He. simpl. apply pool_grows_refl, Hok.
    + destruct (is_running_run env cfg st Hne) as (c & st0 & Hc & Hrun).
      rewrite Hrun. rewrite Hc in Hg. simpl in *.
      eapply pool_grows_ext; [| |exact Hg]; reflexivity.
  - destruct (String.eqb_spec (app_id st) "") as [He|Hne].
    + unfold stop. rewrite He. simpl. apply pool_grows_refl, Hok.
    + destruct (stop_run env cfg st Hne) as (c & st0 & Hc & Hrun).
      rewrite Hrun. rewrite Hc in Hg. simpl in *.
      eapply pool_grows_ext; [| |exact Hg]; reflexivity.
Qed.

Lemma pool_ok_singleton k c st :
  clients st = {[ k := c ]} -> client_object c < next_object st -> pool_ok st.
Proof.
  intros Hcl Hlt. unfold pool_ok. rewrite Hcl. split.
  - intros k' c' H. rewrite lookup_singleton in H.
    case_decide; simplify_eq. exact Hlt.
  - intros k1 k2 c1 c2 H1 H2 _. rewrite lookup_singleton in H1, H2.
    repeat case_decide; simplify_eq. reflexivity.
Qed.

Lemma pool_never_evicts_witness :
  let st' := Scenario.state_after
               (start Scenario.env_B Scenario.cfg 2 Cases.shared) in
  clients st' !! (Some "dask", Some "/etc/dask.keytab")
  = Some Cases.kerberos_client /\
  is_Some (clients st' !! (None, None)).
Proof.
  intros st'.
  destruct (pool_never_evicts Scenario.env_B Scenario.cfg 2 Cases.shared)
    as (H & _).
  - apply (pool_ok_singleton (Some "dask", Some "/etc/dask.keytab")
             Cases.kerberos_client); [reflexivity|simpl; lia].
  - destruct (H (Raise (Exception (failure_message Scenario.app))) st')
      as ((_ & Hkeep & _) & Hown).
    + vm_compute. reflexivity.
    + split; [|exact Hown]. apply Hkeep. reflexivity.
Defined.



Lemma pool_keys_ok_empty st : clients st = ∅ -> pool_keys_ok st.
Proof.
  intros H k c Hk. rewrite H, lookup_empty in Hk. discriminate.
Qed.

(** X8: a controller is handed a client built for its own identity: in
    a pool where every client is cached under the principal and keytab
    it was constructed with (an empty pool is one), [_get_client]
    returns a client with the principal and keytab of the configuration,
    and the pool keeps that property. *)
Theorem get_client_matches_identity env cfg st c st' :
  pool_keys_ok st ->
  _get_client env cfg st = (Ret c, st') ->
  client_principal c = principal cfg /\ client_keytab c = keytab cfg /\
  pool_keys_ok st'.
Proof.
  intros Hok Hrun.
  destruct (clients st !! (principal cfg, keytab cfg)) as [c0|] eqn:E.
  - rewrite (get_client_hit _ _ _ _ E) in Hrun. injection Hrun as <- <-.
    apply Hok in E. injection E as H1 H2. auto.
  - unfold _get_client in Hrun. rewrite E in Hrun. simpl in Hrun.
    injection Hrun as <- <-. simpl. repeat split.
    intros k c Hk. simpl in Hk. rewrite lookup_insert in Hk.
    case_decide; simplify_eq; [reflexivity|]. apply Hok. exact Hk.
Qed.

Lemma get_client_matches_identity_witness :
  client_principal
    {| client_object := 0; client_principal := Some "dask";
       client_keytab := Some "/etc/dask.keytab";
       client_security := Credentials 0 |}
  = principal Scenario.kerberos_cfg.
Proof.
  refine (proj1 (get_client_matches_identity Scenario.env_A
                   Scenario.kerberos_cfg Scenario.fresh _
                   (_get_client Scenario.env_A Scenario.kerberos_cfg
                      Scenario.fresh).2 _ _)).
  - apply pool_keys_ok_empty. reflexivity.
  - vm_compute. reflexivity.
Defined.

(** ** The polling protocol *)

Lemma waiting_continues s :
  waiting s = true ->
  is_terminal (str_of_state s) = false /\
  String.eqb (str_of_state s) "RUNNING" = false.
Proof. destruct s; intros H; try discriminate H; split; reflexivity. Qed.

Lemma not_waiting_ends s :
  waiting s = false ->
  is_terminal (str_of_state s) = true \/
  (is_terminal (str_of_state s) = false /\
   String.eqb (str_of_state s) "RUNNING" = true).
Proof.
  destruct s; intros H; try discriminate H;
    (left; reflexivity) || (right; split; reflexivity).
Qed.

Lemma wait_for_running_step env fuel st :
  wait_for_running env (S fuel) st =
  match rm_report env (clock st) (app_id st) with
  | Raise e => Some (Raise e, suspend [EvReport (app_id st)] st)
  | Ret report =>
    if is_terminal (str_of_state (state report))
    then Some (Raise (Exception (failure_message (app_id st))),
               suspend [EvReport (app_id st)] st)
    else if String.eqb (str_of_state (state report)) "RUNNING"
    then Some (Ret tt, suspend [EvReport (app_id st)] st)
    else wait_for_running env fuel
           (suspend [EvSleep] (suspend [EvReport (app_id st)] st))
  end.
Proof.
  simpl. unfold bind, self_app_id, application_report, sleep.
  destruct (rm_report env (clock st) (app_id st)); reflexivity.
Qed.

(** The first loop, round by round: [n] polls that find the application
    waiting, each followed by a sleep, then the poll that ends the
    loop. *)
Lemma first_loop_rounds env extra n : forall st final,
  (forall i, i < n ->
     exists rep, rm_report env (clock st + 2 * i) (app_id st) = Ret rep /\
                 waiting (state rep) = true) ->
  rm_report env (clock st + 2 * n) (app_id st) = final ->
  (forall rep, final = Ret rep -> waiting (state rep) = false) ->
  exists st',
    wait_for_running env (S n + extra) st
      = Some (first_loop_end (app_id st) final, st') /\
    trace st' = trace st ++ poll_rounds (app_id st) n ++ [EvReport (app_id st)] /\
    clock st' = clock st + 2 * n + 1 /\
    app_id st' = app_id st.
Proof.
  induction n as [|n IH]; intros st final Hwait Hfinal Hend.
  - rewrite Nat.mul_0_r, Nat.add_0_r in Hfinal.
    exists (suspend [EvReport (app_id st)] st).
    change (S 0 + extra) with (S extra).
    rewrite wait_for_running_step, Hfinal. simpl.
    split; [|split; [reflexivity|split; [lia|reflexivity]]].
    destruct final as [rep|e]; [|reflexivity].
    destruct (not_waiting_ends _ (Hend rep eq_refl)) as [Ht|[Ht Hr]];
      simpl; rewrite Ht; [reflexivity|]. rewrite Hr. reflexivity.
  - destruct (Hwait 0) as (rep0 & Hrep0 & Hw0); [lia|].
    rewrite Nat.mul_0_r, Nat.add_0_r in Hrep0.
    destruct (waiting_continues _ Hw0) as [Ht Hr].
    set (st2 := suspend [EvSleep] (suspend [EvReport (app_id st)] st)).
    destruct (IH st2 final) as (st' & Hrun & Htr & Hclock & Hid).
    + intros i Hi. destruct (Hwait (S i)) as (rep & Hrep & Hw); [lia|].
      exists rep. split; [|exact Hw].
      replace (clock st2 + 2 * i) with (clock st + 2 * S i)
        by (subst st2; simpl; lia).
      exact Hrep.
    + replace (clock st2 + 2 * n) with (clock st + 2 * S n)
        by (subst st2; simpl; lia).
      exact Hfinal.
    + exact Hend.
    + exists st'. change (S (S n) + extra) with (S (S n + extra)).
      rewrite wait_for_running_step, Hrep0, Ht, Hr. fold st2.
      split; [exact Hrun|].
      split; [rewrite Htr; subst st2; simpl; rewrite <- !app_assoc; reflexivity|].
      split; [rewrite Hclock; subst st2; simpl; lia|exact Hid].
Qed.

Lemma wait_for_address_round env fuel st :
  address_is_empty env (clock st) ->
  wait_for_address env (S fuel) st =
  match rm_report env (S (clock st)) (app_id st) with
  | Raise e =>
    Some (Raise e, suspend [EvReport (app_id st)] (suspend [EvSleep] st))
  | Ret report =>
    if is_terminal (str_of_state (state report))
    then Some (Raise (Exception (failure_message (app_id st))),
               suspend [EvReport (app_id st)] (suspend [EvSleep] st))
    else wait_for_address env fuel
           (suspend [EvReport (app_id st)] (suspend [EvSleep] st))
  end.
Proof.
  intros H. unfold address_is_empty in H. simpl.
  unfold truthy, getattr_scheduler_address. rewrite H. simpl.
  unfold bind, sleep, self_app_id, application_report. simpl.
  destruct (rm_report env (S (clock st)) (app_id st)); reflexivity.
Qed.

(** The second loop, round by round: [m] times the address is found
    empty, the loop sleeps and polls, and the application is not over. *)
Lemma second_loop_rounds env extra m : forall st,
  (forall i, i < m ->
     address_is_empty env (clock st + 2 * i) /\
     exists rep, rm_report env (clock st + 2 * i + 1) (app_id st) = Ret rep /\
                 is_terminal (str_of_state (state rep)) = false) ->
  exists st',
    wait_for_address env (m + extra) st = wait_for_address env extra st' /\
    trace st' = trace st ++ wait_rounds (app_id st) m /\
    clock st' = clock st + 2 * m /\
    app_id st' = app_id st.
Proof.
  induction m as [|m IH]; intros st Hround.
  - exists st. simpl. rewrite app_nil_r. repeat split; lia.
  - destruct (Hround 0) as (Hempty & rep0 & Hrep0 & Ht0); [lia|].
    rewrite Nat.mul_0_r, Nat.add_0_r in Hempty, Hrep0.
    replace (clock st + 1) with (S (clock st)) in Hrep0 by lia.
    set (st2 := suspend [EvReport (app_id st)] (suspend [EvSleep] st)).
    destruct (IH st2) as (st' & Hrun & Htr & Hclock & Hid).
    + intros i Hi. destruct (Hround (S i)) as (He & rep & Hrep & Ht); [lia|].
      replace (clock st2 + 2 * i) with (clock st + 2 * S i)
        by (subst st2; simpl; lia).
      split; [exact He|]. exists rep. split; [exact Hrep|exact Ht].
    + exists st'. change (S m + extra) with (S (m + extra)).
      rewrite (wait_for_address_round _ _ _ Hempty), Hrep0, Ht0. fold st2.
      split; [exact Hrun|].
      split; [rewrite Htr; subst st2; simpl; rewrite <- !app_assoc; reflexivity|].
      split; [rewrite Hclock; subst st2; simpl; lia|exact Hid].
Qed.

(** X9: [start] polls until the cluster is ready.  After a successful
    submission, if [n] polls find the application waiting (SUBMITTED or
    ACCEPTED), the next finds it RUNNING, then for [m] rounds the
    scheduler address is still empty while the reports are not terminal,
    and after that the address is [a], non-empty, then [start] returns
    [a] with the dashboard address of that moment, having made exactly
    [n + 1] polls with a sleep after each but the last, then [m] rounds
    of a sleep and a poll, and nothing else. *)
Theorem start_polls_until_ready env cfg st st1 n m a fuel :
  start_submission env cfg st = (Ret tt, st1) ->
  (forall i, i < n ->
     exists rep, rm_report env (clock st1 + 2 * i) (app_id st1) = Ret rep /\
                 waiting (state rep) = true) ->
  rm_report env (clock st1 + 2 * n) (app_id st1) = Ret {| state := RUNNING |} ->
  (forall j, j < m ->
     address_is_empty env (clock st1 + 2 * n + 1 + 2 * j) /\
     exists rep,
       rm_report env (clock st1 + 2 * n + 1 + 2 * j + 1) (app_id st1) = Ret rep /\
       is_terminal (str_of_state (state rep)) = false) ->
  scheduler_address_at env (clock st1 + 2 * n + 1 + 2 * m) = Some a ->
  a <> "" ->
  S n <= fuel -> m <= fuel ->
  exists st',
    start env cfg fuel st =
      Some (Ret (a, dashboard_address_at env (clock st1 + 2 * n + 1 + 2 * m)), st') /\
    trace st' = trace st1 ++ poll_rounds (app_id st1) n ++ [EvReport (app_id st1)]
                          ++ wait_rounds (app_id st1) m /\
    clock st' = clock st1 + 2 * n + 1 + 2 * m /\
    app_id st' = app_id st1.
Proof.
  intros Hsub Hwait Hrunning Hrounds Haddr Hne Hn Hm.
  destruct (first_loop_rounds env (fuel - S n) n st1 _ Hwait Hrunning)
    as (st2 & Hrun & Htr2 & Hclock2 & Hid2).
  { intros rep Hrep. injection Hrep as <-. reflexivity. }
  replace (S n + (fuel - S n)) with fuel in Hrun by lia.
  change (first_loop_end (app_id st1) (Ret {| state := RUNNING |}))
    with (Ret (A:=unit) tt) in Hrun.
  destruct (second_loop_rounds env (fuel - m) m st2) as (st3 & Hgo & Htr3 & Hclock3 & Hid3).
  { intros j Hj. rewrite Hclock2, Hid2. apply Hrounds. exact Hj. }
  replace (m + (fuel - m)) with fuel in Hgo by lia.
  assert (Hnow : wait_for_address env (fuel - m) st3 = Some (Ret tt, st3)).
  { apply wait_for_address_now. eapply address_truthy; [|exact Hne].
    rewrite Hclock3, Hclock2. exact Haddr. }
  rewrite Hnow in Hgo.
  exists st3. split.
  - rewrite (start_unfold_ok _ _ _ _ _ _ _ Hsub Hrun Hgo).
    unfold return_addresses. rewrite Hclock3, Hclock2, Haddr. reflexivity.
  - split; [rewrite Htr3, Htr2, Hid2, <- !app_assoc; reflexivity|].
    split; [lia|congruence].
Qed.

Lemma start_polls_until_ready_witness :
  exists st',
    start Scenario.env_A Scenario.cfg 3 Scenario.fresh =
      Some (Ret (Scenario.address, "http://10.0.0.1:8787"), st') /\
    clock st' = 11.
Proof.
  destruct (start_polls_until_ready Scenario.env_A Scenario.cfg Scenario.fresh
              (start_submission Scenario.env_A Scenario.cfg Scenario.fresh).2
              2 2 Scenario.address 3) as (st' & Hrun & _ & Hclock & _).
  - vm_compute. reflexivity.
  - intros i Hi. exists {| state := ACCEPTED |}.
    destruct i as [|[|i]]; [split; reflexivity|split; reflexivity|lia].
  - reflexivity.
  - intros j Hj.
    destruct j as [|[|j]]; [| |lia];
      (split; [reflexivity|]; exists {| state := RUNNING |}; split; reflexivity).
  - reflexivity.
  - discriminate.
  - lia.
  - lia.
  - exists st'. split; [exact Hrun|exact Hclock].
Defined.

(** X10: [start] gives up on a terminal state.  After a successful
    submission, if [n] polls find the application waiting and the next
    report is FAILED, KILLED or FINISHED, [start] raises the exception
    that names the recorded application id, right after that poll, with
    no further sleep; the id stays recorded. *)
Theorem start_fails_on_terminal_report env cfg st st1 n rep fuel :
  start_submission env cfg st = (Ret tt, st1) ->
  (forall i, i < n ->
     exists rep, rm_report env (clock st1 + 2 * i) (app_id st1) = Ret rep /\
                 waiting (state rep) = true) ->
  rm_report env (clock st1 + 2 * n) (app_id st1) = Ret rep ->
  is_terminal (str_of_state (state rep)) = true ->
  S n <= fuel ->
  exists st',
    start env cfg fuel st =
      Some (Raise (Exception (failure_message (app_id st1))), st') /\
    trace st' = trace st1 ++ poll_rounds (app_id st1) n ++ [EvReport (app_id st1)] /\
    app_id st' = app_id st1.
Proof.
  intros Hsub Hwait Hrep Hterm Hn.
  destruct (first_loop_rounds env (fuel - S n) n st1 _ Hwait Hrep)
    as (st2 & Hrun & Htr2 & _ & Hid2).
  { intros rep' Heq. injection Heq as <-.
    destruct rep as [[]]; simpl in *; try reflexivity; discriminate Hterm. }
  replace (S n + (fuel - S n)) with fuel in Hrun by lia.
  simpl in Hrun. rewrite Hterm in Hrun.
  exists st2. split; [|split; [exact Htr2|exact Hid2]].
  unfold start. rewrite Hsub, Hrun. reflexivity.
Qed.

Lemma start_fails_on_terminal_report_witness :
  exists st',
    start Scenario.env_B Scenario.cfg 2 Scenario.fresh =
      Some (Raise (Exception (failure_message Scenario.app)), st') /\
    app_id st' = Scenario.app.
Proof.
  destruct (start_fails_on_terminal_report Scenario.env_B Scenario.cfg
              Scenario.fresh
              (start_submission Scenario.env_B Scenario.cfg Scenario.fresh).2
              1 {| state := FAILED |} 2) as (st' & Hrun & _ & Hid).
  - vm_compute. reflexivity.
  - intros i Hi. exists {| state := ACCEPTED |}.
    destruct i as [|i]; [split; reflexivity|lia].
  - reflexivity.
  - reflexivity.
  - lia.
  - exists st'. split; [exact Hrun|exact Hid].
Defined.

(** X11: an application that dies after RUNNING still fails [start].
    When the first loop has seen RUNNING, the address stays empty for
    [m] rounds with reports that are not terminal, and the report of the
    next round is FAILED, KILLED or FINISHED, [start] raises the
    exception that names the recorded id, after that poll. *)
Theorem start_fails_when_application_dies env cfg st st1 st2 m rep fuel :
  start_submission env cfg st = (Ret tt, st1) ->
  wait_for_running env fuel st1 = Some (Ret tt, st2) ->
  (forall j, j < m ->
     address_is_empty env (clock st2 + 2 * j) /\
     exists rep', rm_report env (clock st2 + 2 * j + 1) (app_id st1) = Ret rep' /\
                  is_terminal (str_of_state (state rep')) = false) ->
  address_is_empty env (clock st2 + 2 * m) ->
  rm_report env (clock st2 + 2 * m + 1) (app_id st1) = Ret rep ->
  is_terminal (str_of_state (state rep)) = true ->
  S m <= fuel ->
  exists st',
    start env cfg fuel st =
      Some (Raise (Exception (failure_message (app_id st1))), st') /\
    trace st' = trace st2 ++ wait_rounds (app_id st1) m
                          ++ [EvSleep; EvReport (app_id st1)] /\
    app_id st' = app_id st1.
Proof.
  intros Hsub Hrun Hrounds Hempty Hrep Hterm Hm.
  pose proof (wait_for_running_frame _ _ _ _ _ Hrun) as (_ & Hid2 & _).
  destruct (second_loop_rounds env (fuel - m) m st2)
    as (st3 & Hgo & Htr3 & Hclock3 & Hid3).
  { intros j Hj. rewrite Hid2. apply Hrounds. exact Hj. }
  replace (m + (fuel - m)) with fuel in Hgo by lia.
  destruct (fuel - m) as [|extra] eqn:Hextra; [lia|].
  rewrite wait_for_address_round in Hgo by (rewrite Hclock3; exact Hempty).
  replace (S (clock st3)) with (clock st2 + 2 * m + 1) in Hgo by lia.
  rewrite Hid3, Hid2, Hrep, Hterm in Hgo.
  eexists. split; [unfold start; rewrite Hsub, Hrun, Hgo; reflexivity|].
  simpl. rewrite Htr3, Hid2, <- !app_assoc. split; [reflexivity|congruence].
Qed.

Lemma start_fails_when_application_dies_witness :
  exists st',
    start Cases.env_dies Scenario.cfg 1 Scenario.fresh =
      Some (Raise (Exception (failure_message Scenario.app)), st') /\
    app_id st' = Scenario.app.
Proof.
  destruct (start_fails_when_application_dies Cases.env_dies Scenario.cfg
              Scenario.fresh
              (start_submission Cases.env_dies Scenario.cfg Scenario.fresh).2
              (Scenario.state_after
                 (wait_for_running Cases.env_dies 1
                    (start_submission Cases.env_dies Scenario.cfg Scenario.fresh).2))
              0 {| state := FAILED |} 1) as (st' & Hrun & _ & Hid).
  - vm_compute. reflexivity.
  - vm_compute. reflexivity.
  - intros j Hj. lia.
  - reflexivity.
  - reflexivity.
  - reflexivity.
  - lia.
  - exists st'. split; [exact Hrun|exact Hid].
Defined.

(** ** What [start] does to the trace, the pool and the files *)

Lemma count_poll_events p app evs :
  p (EvReport app) = false -> p EvSleep = false ->
  Forall (poll_event app) evs -> count_events p evs = 0.
Proof.
  intros Hr Hs H. unfold count_events.
  induction H as [|ev evs [-> | ->] _ IH]; simpl; [reflexivity| |].
  - rewrite Hr. exact IH.
  - rewrite Hs. exact IH.
Qed.

(** X12: [start] submits at most once and never kills.  Whatever its
    outcome, its events are: the construction of a client when none is
    cached, then at most one submit call, then only report queries for
    the recorded id and sleeps.  Without a submit call there is no poll,
    [start] has raised and the recorded id is unchanged. *)
Theorem start_trace env cfg fuel st r st' :
  start env cfg fuel st = Some (r, st') ->
  exists sent evs,
    trace st' = submission_trace cfg st sent ++ evs /\
    Forall (poll_event (app_id st')) evs /\
    (sent = None ->
     evs = [] /\ app_id st' = app_id st /\ exists e, r = Raise e) /\
    count_events is_submit (trace st') <= S (count_events is_submit (trace st)) /\
    count_events is_kill (trace st') = count_events is_kill (trace st).
Proof.
  intros H.
  pose proof (start_quiet_after_submission _ _ _ _ _ _ H)
    as (_ & Hid & _ & _ & _ & evs & Htr & Hevs & _).
  pose proof (start_submission_cases env cfg st) as Hc.
  assert (Hsent : exists sent,
            trace (start_submission env cfg st).2 = submission_trace cfg st sent /\
            (sent = None ->
             evs = [] /\ app_id st' = app_id st /\ exists e, r = Raise e)).
  { apply start_inv in H.
    destruct (start_submission env cfg st) as [[[]|e] st1] eqn:Hs.
    - destruct Hc as (spec & t & _ & Htr1). exists (Some spec).
      split; [exact Htr1|discriminate].
    - destruct H as [(e0 & -> & Heq)|(st1' & Heq & _)]; [|discriminate].
      injection Heq as <- <-. simpl in Htr.
      assert (Hnil : evs = []).
      { apply (f_equal (@length event)) in Htr. rewrite length_app in Htr.
        destruct evs; [reflexivity|simpl in Htr; lia]. }
      destruct Hc as (Hid1 & [(spec & t & _ & Htr1)|Htr1]).
      + exists (Some spec). split; [exact Htr1|discriminate].
      + exists None. split; [exact Htr1|]. intros _. eauto. }
  destruct Hsent as (sent & Htr1 & Hnone).
  rewrite Hid in *. exists sent, evs. rewrite Htr, Htr1.
  split; [reflexivity|]. split; [exact Hevs|]. split; [exact Hnone|].
  unfold submission_trace. rewrite !count_events_app.
  rewrite (count_poll_events is_submit _ evs eq_refl eq_refl Hevs).
  rewrite (count_poll_events is_kill _ evs eq_refl eq_refl Hevs).
  assert (Hcon : count_events is_submit (construction cfg st) = 0 /\
                 count_events is_kill (construction cfg st) = 0).
  { unfold construction.
    destruct (clients st !! (principal cfg, keytab cfg)); split; reflexivity. }
  destruct Hcon as [-> ->].
  destruct sent as [spec|].
  - change (count_events is_submit [EvSubmit spec]) with 1.
    change (count_events is_kill [EvSubmit spec]) with 0. lia.
  - change (count_events is_submit []) with 0.
    change (count_events is_kill []) with 0. lia.
Qed.

Lemma start_trace_witness :
  count_events is_kill
    (trace (Scenario.state_after
              (start Scenario.env_B Scenario.cfg 2 Scenario.fresh)))
  = count_events is_kill (trace Scenario.fresh).
Proof.
  destruct (start_trace Scenario.env_B Scenario.cfg 2 Scenario.fresh
              (Raise (Exception (failure_message Scenario.app)))
              (Scenario.state_after
                 (start Scenario.env_B Scenario.cfg 2 Scenario.fresh)))
    as (sent & evs & _ & _ & _ & _ & Hkill).
  - vm_compute. reflexivity.
  - exact Hkill.
Defined.

Lemma start_caches_client env cfg fuel st r st' :
  start env cfg fuel st = Some (r, st') ->
  is_Some (clients st' !! (principal cfg, keytab cfg)).
Proof.
  intros H.
  pose proof (start_quiet_after_submission _ _ _ _ _ _ H) as (_ & _ & Hc & _).
  destruct (start_submission_pool env cfg st) as (Hc' & _).
  destruct (get_client_total env cfg st) as (c & st0 & Hrun & Hcl & _).
  rewrite Hc, Hc', Hrun. simpl. eauto.
Qed.

(** X13: after [start], [is_running] and [stop] reuse its client.  In
    the state a [start] leaves behind, with an id recorded (also when
    [start] failed after the submission), [stop] sends one kill request
    for that id and [is_running] one report query for it, both without
    constructing a client, and each passes on what the call answers. *)
Theorem start_then_stop env cfg fuel st r st' :
  start env cfg fuel st = Some (r, st') ->
  app_id st' <> "" ->
  stop env cfg st' =
    (rm_kill env (clock st') (app_id st'), suspend [EvKill (app_id st')] st') /\
  is_running env cfg st' =
    (match rm_report env (clock st') (app_id st') with
     | Ret rep => Ret (state_eq_str (state rep) "RUNNING")
     | Raise e => Raise e
     end, suspend [EvReport (app_id st')] st').
Proof.
  intros H Hid.
  destruct (start_caches_client _ _ _ _ _ _ H) as [c Hc].
  pose proof (get_client_hit env cfg st' c Hc) as Hhit.
  split.
  - destruct (stop_run env cfg st' Hid) as (c' & st0 & Hg & Hrun).
    rewrite Hhit in Hg. injection Hg as <- <-. exact Hrun.
  - destruct (is_running_run env cfg st' Hid) as (c' & st0 & Hg & Hrun).
    rewrite Hhit in Hg. injection Hg as <- <-. exact Hrun.
Qed.

Lemma start_then_stop_witness :
  trace (stop Scenario.env_B Scenario.cfg
           (Scenario.state_after
              (start Scenario.env_B Scenario.cfg 2 Scenario.fresh))).2
  = trace (Scenario.state_after
             (start Scenario.env_B Scenario.cfg 2 Scenario.fresh))
    ++ [EvKill Scenario.app].
Proof.
  destruct (start_then_stop Scenario.env_B Scenario.cfg 2 Scenario.fresh
              (Raise (Exception (failure_message Scenario.app)))
              (Scenario.state_after
                 (start Scenario.env_B Scenario.cfg 2 Scenario.fresh)))
    as (Hstop & _).
  - vm_compute. reflexivity.
  - vm_compute. discriminate.
  - rewrite Hstop. vm_compute. reflexivity.
Defined.

(** X14: a kill request that raises makes [stop] raise the same error;
    the request was sent once, the id stays recorded and the files are
    untouched, so the caller can call [stop] again. *)
Theorem stop_passes_on_kill_error env cfg st :
  app_id st <> "" ->
  exists c st0,
    _get_client env cfg st = (Ret c, st0) /\
    (stop env cfg st).1 = rm_kill env (clock st0) (app_id st) /\
    app_id (stop env cfg st).2 = app_id st /\
    fs (stop env cfg st).2 = fs st /\
    count_events is_kill (trace (stop env cfg st).2)
    = S (count_events is_kill (trace st)).
Proof.
  intros Hid.
  destruct (stop_run env cfg st Hid) as (c & st0 & Hg & Hrun).
  destruct (get_client_total env cfg st) as (c' & st0' & Hg' & _ & Htr & Hid0 & Hfs).
  rewrite Hg in Hg'. injection Hg' as <- <-.
  exists c, st0. rewrite Hrun. simpl.
  split; [exact Hg|]. split; [reflexivity|]. split; [exact Hid0|].
  split; [exact Hfs|].
  rewrite Htr, !count_events_app.
  change (count_events is_kill [EvKill (app_id st)]) with 1.
  assert (Hcon : count_events is_kill (construction cfg st) = 0).
  { unfold construction.
    destruct (clients st !! (principal cfg, keytab cfg)); reflexivity. }
  rewrite Hcon. lia.
Qed.

Lemma stop_passes_on_kill_error_witness :
  (stop Cases.env_no_kill Scenario.cfg Scenario.submitted).1
  = Raise (ClientError "connection lost").
Proof.
  destruct (stop_passes_on_kill_error Cases.env_no_kill Scenario.cfg
              Scenario.submitted) as (c & st0 & _ & Hres & _).
  - discriminate.
  - rewrite Hres. reflexivity.
Defined.

Lemma written_other env cfg st p :
  p <> cert_path cfg -> p <> key_path cfg ->
  fs (write_credentials env cfg st).2 !! p = fs st !! p.
Proof.
  intros H1 H2.
  write_cases env cfg st; lookup_cases; congruence.
Qed.

Lemma with_block_fs env cfg cert key st :
  fs (with_block env cfg cert key st).2 = fs st.
Proof.
  unfold with_block, bind.
  pose proof (build_specification_frame env cfg cert key st) as Hb.
  destruct (_build_specification env cfg cert key st) as [[spec|e] st1];
    simpl in Hb; destruct Hb as (_ & Hfs & _); [|exact Hfs].
  unfold submit. destruct (rm_submit env (clock st1) spec); exact Hfs.
Qed.

(** X15: the controller touches no file but its two credential files:
    after [start], however it ends, every other path holds what it held
    before; [is_running] and [stop] leave the whole file system as it
    is. *)
Theorem only_credential_files_touched env cfg st :
  (forall fuel r st' p,
      start env cfg fuel st = Some (r, st') ->
      p <> cert_path cfg -> p <> key_path cfg ->
      fs st' !! p = fs st !! p) /\
  fs (is_running env cfg st).2 = fs st /\
  fs (stop env cfg st).2 = fs st.
Proof.
  split; [|split].
  - intros fuel r st' p H Hc Hk.
    pose proof (start_quiet_after_submission _ _ _ _ _ _ H) as (Hfs & _).
    rewrite Hfs. clear H Hfs.
    destruct (get_client_total env cfg st) as (c & st0 & Hg & _ & _ & _ & Hfs0).
    assert (Hsub : start_submission env cfg st
                   = temp_write_credentials env cfg (with_block env cfg) st0).
    { unfold start_submission, bind. rewrite Hg. reflexivity. }
    rewrite Hsub, <- Hfs0. unfold temp_write_credentials.
    match goal with |- context [try_finally ?body ?f st0] =>
      destruct (try_finally_unlink body [cert_path cfg; key_path cfg] st0)
        as (st2 & Hrun & Hfs2 & _); rewrite Hrun; clear Hrun;
      revert Hfs2 end.
    simpl. intros ->.
    rewrite !lookup_delete_ne by congruence.
    unfold bind.
    pose proof (written_other env cfg st0 p Hc Hk) as Hw.
    destruct (write_credentials env cfg st0) as [[[]|e] st1]; simpl in *;
      [|exact Hw].
    rewrite with_block_fs. exact Hw.
  - destruct (String.eqb_spec (app_id st) "") as [He|Hne].
    + unfold is_running. rewrite He. reflexivity.
    + destruct (is_running_run env cfg st Hne) as (c & st0 & Hg & Hrun).
      destruct (get_client_total env cfg st) as (c' & st0' & Hg' & _ & _ & _ & Hfs).
      rewrite Hg in Hg'. injection Hg' as <- <-. rewrite Hrun. exact Hfs.
  - destruct (String.eqb_spec (app_id st) "") as [He|Hne].
    + unfold stop. rewrite He. reflexivity.
    + destruct (stop_run env cfg st Hne) as (c & st0 & Hg & Hrun).
      destruct (get_client_total env cfg st) as (c' & st0' & Hg' & _ & _ & _ & Hfs).
      rewrite Hg in Hg'. injection Hg' as <- <-. rewrite Hrun. exact Hfs.
Qed.

Lemma only_credential_files_touched_witness :
  fs (Scenario.state_after
        (start Scenario.env_B Scenario.cfg 2 Cases.busy)) !! "/tmp/other"
  = Some {| f_mode := 420; f_data := [Byte.x43] |}.
Proof.
  destruct (only_credential_files_touched Scenario.env_B Scenario.cfg Cases.busy)
    as (H & _).
  rewrite (H 2 (Raise (Exception (failure_message Scenario.app)))
             (Scenario.state_after
                (start Scenario.env_B Scenario.cfg 2 Cases.busy))
             "/tmp/other").
  - reflexivity.
  - vm_compute. reflexivity.
  - discriminate.
  - discriminate.
Defined.

(** ** The scope and its body *)

(** X16: the scope of [temp_write_credentials] passes on what its body
    does.  When both files could be written, the body runs in a state
    where they hold the certificate and the key, the scope ends as the
    body ended (its value or its exception), and apart from the file
    system the state is the one the body left; when writing fails, the
    body is not run, the error of the write is raised and only the file
    system may have changed. *)
Theorem credential_scope_outcome {A} env cfg (body : string -> string -> M A) st :
  match write_credentials env cfg st with
  | (Ret _, st1) =>
    fs st1 !! cert_path cfg = Some (created env (tls_cert cfg)) /\
    fs st1 !! key_path cfg = Some (created env (tls_key cfg)) /\
    same_but_fs st st1 /\
    (temp_write_credentials env cfg body st).1
    = (body (cert_path cfg) (key_path cfg) st1).1 /\
    same_but_fs (body (cert_path cfg) (key_path cfg) st1).2
                (temp_write_credentials env cfg body st).2
  | (Raise e, _) =>
    (temp_write_credentials env cfg body st).1 = Raise e /\
    same_but_fs st (temp_write_credentials env cfg body st).2
  end.
Proof.
  pose proof (temp_write_credentials_result env cfg body st) as Hres.
  pose proof (written_ok env cfg st) as Hok.
  pose proof (write_each_frame env credential_flags
    [(cert_path cfg, tls_cert cfg); (key_path cfg, tls_key cfg)] st) as Hw.
  fold (write_credentials env cfg) in Hw.
  assert (Hend : same_but_fs
            ((run write_credentials env cfg;
              body (cert_path cfg) (key_path cfg)) st).2
            (temp_write_credentials env cfg body st).2).
  { unfold temp_write_credentials.
    match goal with |- context [try_finally ?c ?f st] =>
      destruct (try_finally_unlink c [cert_path cfg; key_path cfg] st)
        as (st' & Hrun & _ & Hfr) end.
    rewrite Hrun. exact Hfr. }
  unfold bind in Hend.
  destruct (write_credentials env cfg st) as [[[]|e] st1]; simpl in *.
  - destruct (Hok eq_refl) as (_ & _ & Hc & Hk). auto.
  - split; [exact Hres|]. eapply same_but_fs_trans; eauto.
Qed.

(** X17: with argument getters that return lists, [start] never reaches
    the resource manager: for every environment and state it raises in
    its submission phase, makes no call on the resource manager, leaves
    the recorded id as it was and no credential file behind. *)
Theorem start_never_submits_with_argument_lists env cfg args fuel st :
  get_scheduler_args cfg = PList args ->
  exists e st',
    start env cfg fuel st = Some (Raise e, st') /\
    app_id st' = app_id st /\
    count_events is_rm_call (trace st') = count_events is_rm_call (trace st) /\
    creds_absent cfg st'.
Proof.
  intros Hargs.
  destruct (start_raises_on_argument_list env cfg args fuel st Hargs)
    as (e & st' & Hrun & Hid & Hcalls).
  exists e, st'. repeat (split; [assumption|]).
  apply (start_keeps_files _ _ _ _ _ _ Hrun).
Qed.

Lemma start_never_submits_with_argument_lists_witness :
  exists e st',
    start Scenario.env_A Scenario.cfg_lists 5 Scenario.fresh
    = Some (Raise e, st') /\ app_id st' = "".
Proof.
  destruct (start_never_submits_with_argument_lists Scenario.env_A
              Scenario.cfg_lists ["--port"; "0"] 5 Scenario.fresh)
    as (e & st' & Hrun & Hid & _).
  - reflexivity.
  - exists e, st'. split; [exact Hrun|exact Hid].
Defined.
